(** * fastapi-auth: the authentication service

    A shallow embedding of [services/user_service.py] (class [UserService]:
    [log_user_in] and [signup_user]) together with the data it works on
    ([models/user.py], the fields of [settings.py] the service reads).

    The service is an [async] Python program that talks to an injected
    repository, may raise [HTTPException], and hands the authenticated user
    to a token issuer.  It is embedded as a state-and-exception monad over a
    [World] holding the user table, the clock and a log of the collaborator
    calls that were actually executed. *)

(** Further down, [settings.py] (the environment file, [configure] and the
    cached [get_settings]) is embedded over a process state with an
    idealised file system, and the session generator of [database/db.py] as
    a function of what its session context manager and its consumer do. *)

From stdpp Require Import base strings gmap.
From Stdlib Require Import ZArith Lia.

Local Open Scope Z_scope.
Local Open Scope string_scope.

(** ** Data model *)

(** [models/user.py], class [User].  The primary key [id] is inherited from
    [Base]; the nullable columns are [option]s. *)
Record User := mkUser {
  id : Z;
  name : option string;
  email : string;
  profile_pic : option string;
  password : option string
}.

(** [settings.py], class [Settings]: the options read by the authentication
    flow and by the token issuer. *)
Record Settings := mkSettings {
  jwt_secret_key : string;
  jwt_algorithm : string;
  jwt_access_token_expire_minutes : Z;
  jwt_refresh_token_expire_minutes : Z;
  jwt_audience : string;
  passwordless_login_enabled : bool;
  email_verification_required : bool
}.

(** The defaults declared in [settings.py] ([jwt_secret_key] has none). *)
Definition default_settings (secret : string) : Settings :=
  {| jwt_secret_key := secret;
     jwt_algorithm := "HS256";
     jwt_access_token_expire_minutes := 30;
     jwt_refresh_token_expire_minutes := 60 * 24 * 30;
     jwt_audience := "fastapi-auth";
     passwordless_login_enabled := false;
     email_verification_required := false |}.

(** Modelled from the spec: the request schemas of [schemas/user.py], which
    the service imports.  A login carries an email and a password; a signup
    carries an email and optionally a password and a display name
    ([log_user_in] builds one from the email alone). *)
Record UserPasswordLoginSchema := mkLogin {
  login_email : string;
  login_password : string
}.

(** Modelled from the spec: [UserSignupSchema] of [schemas/user.py]. *)
Record UserSignupSchema := mkSignup {
  signup_email : string;
  signup_password : option string;
  signup_name : option string
}.

(** [UserSignupSchema(email=e)]: every other field takes its default. *)
Definition signup_of_email (e : string) : UserSignupSchema :=
  {| signup_email := e; signup_password := None; signup_name := None |}.

(** ** Exceptions and outcomes *)

(** What a call can raise: FastAPI's [HTTPException(status_code, detail)], or
    any other Python exception, kept by name. *)
Inductive exn :=
| HTTPException (status_code : Z) (detail : string)
| PyError (cls : string).

Inductive outcome (A : Type) :=
| Returns (a : A)
| Raises (e : exn).
Arguments Returns {A} a.
Arguments Raises {A} e.

(** The error kinds of the spec and the exceptions the service raises for
    them. *)
Definition UserNotFoundError : exn :=
  HTTPException 404 "No user exists with the given email.".
Definition DuplicateUserError : exn :=
  HTTPException 400 "User already exists.".
Definition PasswordRequiredError : exn :=
  HTTPException 400 "Password is required.".
Definition InvalidCredentialsError : exn :=
  HTTPException 401 "Invalid credentials".

Definition status_of (e : exn) : option Z :=
  match e with
  | HTTPException c _ => Some c
  | PyError _ => None
  end.

(** ** The world the service runs in *)

(** Calls on the collaborators that were really executed, newest first. *)
Inductive Call :=
| CallGetUserByEmail (e : string)
| CallCreateUser (e : string)
| CallVerifyPassword
| CallGenerateJwt.

(** Modelled from the spec: the state behind [repositories/user_repository.py]
    (class [UserRepository]), the table of user records keyed by their unique
    email, and the next primary key to hand out. *)
Record Repo := mkRepo {
  users : gmap string User;
  next_id : Z
}.

Record World := mkWorld {
  db : Repo;
  clock : Z;
  calls : list Call
}.

Definition log_call (c : Call) (w : World) : World :=
  {| db := db w; clock := clock w; calls := c :: calls w |}.

Definition set_db (r : Repo) (w : World) : World :=
  {| db := r; clock := clock w; calls := calls w |}.

(** ** The monad of service code

    A computation takes the world and gives back an outcome and the world it
    left behind; what was done before an exception stays done. *)
Module Import Eff.

Definition M (A : Type) : Type := World -> outcome A * World.

Definition ret {A} (a : A) : M A := fun w => (Returns a, w).

Definition raise {A} (e : exn) : M A := fun w => (Raises e, w).

Definition bind {A B} (c : M A) (k : A -> M B) : M B :=
  fun w =>
    match c w with
    | (Returns a, w') => k a w'
    | (Raises e, w') => (Raises e, w')
    end.

(** A pure collaborator's answer, an exception included. *)
Definition lift {A} (o : outcome A) : M A := fun w => (o, w).

Definition get_clock : M Z := fun w => (Returns (clock w), w).

Definition tell (c : Call) : M unit := fun w => (Returns tt, log_call c w).

(** Calling an [async def] only builds a coroutine object, a suspended
    computation; [await] is what runs it. *)
Definition Coroutine (A : Type) : Type := M A.

Definition await {A} (c : Coroutine A) : M A := c.

End Eff.

Declare Scope eff_scope.
Delimit Scope eff_scope with eff.
Notation "x <- c ;; k" := (bind c (fun x => k))
  (at level 100, c at next level, right associativity) : eff_scope.
Notation "c ;;; k" := (bind c (fun _ => k))
  (at level 100, right associativity) : eff_scope.
Local Open Scope eff_scope.

(** ** Python values and truthiness *)

(** The objects the variable [user] of the service can hold: [None], a
    [User] row, or a coroutine of the repository that was not awaited. *)
Inductive pyobj :=
| PyNone
| PyUser (u : User)
| PyCoroutine (c : Coroutine (option User)).

(** [bool(x)]: only [None] is false here; a model instance and a coroutine
    object define neither [__bool__] nor [__len__]. *)
Definition truthy (x : pyobj) : bool :=
  match x with
  | PyNone => false
  | PyUser _ => true
  | PyCoroutine _ => true
  end.

(** [bool(s)] for a [str | None] column: [None] and the empty string are
    false. *)
Definition truthy_str (s : option string) : bool :=
  match s with
  | None => false
  | Some "" => false
  | Some _ => true
  end.

(** ** Collaborators *)

(** The helper modules the service imports, [utils/password.py] and
    [utils/jwt.py], as an interface: the service is verified against any
    implementation of it.  [JWT] stands for [UserJWTResponseSchema].  The
    issuer reads the clock, so the instant of the call is an argument. *)
Class Utils (JWT : Type) := {
  hash_password : string -> string;
  verify_password : string -> string -> outcome bool;
  generate_jwt_token : Z -> pyobj -> Settings -> outcome JWT
}.

(** Modelled from the spec: [UserRepository.get_user_by_email] of
    [repositories/user_repository.py], an [async def] (the service awaits
    it): a read of the record stored under the unique email, [None] when
    there is none.  This lookup always answers; a repository whose lookup
    raises is covered by [log_user_in_via], which takes the lookup as a
    parameter. *)
Definition get_user_by_email (e : string) : Coroutine (option User) :=
  tell (CallGetUserByEmail e) ;;;
  fun w => (Returns (users (db w) !! e), w).

(** Modelled from the spec: [UserRepository.create_user] of
    [repositories/user_repository.py], an [async def]: the insertion assigns
    the primary key, stores the hash of the password and never the
    plaintext, and is refused by the unique index when the email is already
    taken. *)
Definition create_user {JWT : Type} {U : Utils JWT} (user : UserSignupSchema)
  : Coroutine User :=
  tell (CallCreateUser (signup_email user)) ;;;
  fun w =>
    match users (db w) !! signup_email user with
    | Some _ => (Raises (PyError "IntegrityError"), w)
    | None =>
        let row := {| id := next_id (db w);
                      name := signup_name user;
                      email := signup_email user;
                      profile_pic := None;
                      password := hash_password <$> signup_password user |} in
        (Returns row,
         set_db {| users := <[signup_email user := row]> (users (db w));
                   next_id := next_id (db w) + 1 |} w)
    end.

(** ** [services/user_service.py], class [UserService]

    [self.repository] is the table in the world, [self.settings] the argument
    [settings]. *)
Section UserService.

Context {JWT : Type} {U : Utils JWT}.
Variable settings : Settings.

(** The two calls into the helper modules, logged. *)
Definition call_verify_password (pw hashed : string) : M bool :=
  tell CallVerifyPassword ;;;
  lift (verify_password pw hashed).

Definition call_generate_jwt_token (user : pyobj) : M JWT :=
  tell CallGenerateJwt ;;;
  now <- get_clock ;;
  lift (generate_jwt_token now user settings).

(** [async def signup_user(self, user_signup)].  Line 50 calls
    [get_user_by_email] without [await]: [user] is bound to the coroutine
    object and the lookup itself never runs. *)
Definition signup_user (user_signup : UserSignupSchema) : Coroutine JWT :=
  let user := PyCoroutine (get_user_by_email (signup_email user_signup)) in
  (* If passwordless is enabled just create the user *)
  (if passwordless_login_enabled settings then ret tt else ret tt) ;;;
  (* If a user exists, raise an exception *)
  if truthy user then raise DuplicateUserError
  else
    (* If email verification is required, send a verification email *)
    (if email_verification_required settings then ret tt else ret tt) ;;;
    (* Create the user *)
    _ <- await (create_user user_signup) ;;
    (* Generate a jwt for the user and return *)
    call_generate_jwt_token user.

(** [async def log_user_in(self, user_login)]. *)
Definition log_user_in (user_login : UserPasswordLoginSchema)
  : Coroutine JWT :=
  found <- await (get_user_by_email (login_email user_login)) ;;
  match found with
  | None =>
      (* If the user does not exist, raise an exception *)
      raise UserNotFoundError
  | Some user =>
      (* See if this is a passwordless login *)
      (if passwordless_login_enabled settings
       then _ <- await (signup_user (signup_of_email (login_email user_login))) ;;
            ret tt
       else ret tt) ;;;
      if negb (truthy_str (password user)) then raise PasswordRequiredError
      else
        (* Verify the password *)
        ok <- call_verify_password (login_password user_login)
                                   (default "" (password user)) ;;
        if negb ok then raise InvalidCredentialsError
        else
          (* Generate a jwt for the user and return *)
          call_generate_jwt_token (PyUser user)
  end.

(** The same method with the two methods it calls on [self] as parameters:
    [self.repository.get_user_by_email], of the injected repository, which
    may raise and may do anything to the world, and [self.signup_user]. *)
Definition log_user_in_via
    (lookup : string -> Coroutine (option User))
    (signup : UserSignupSchema -> Coroutine JWT)
    (user_login : UserPasswordLoginSchema) : Coroutine JWT :=
  found <- await (lookup (login_email user_login)) ;;
  match found with
  | None =>
      (* If the user does not exist, raise an exception *)
      raise UserNotFoundError
  | Some user =>
      (* See if this is a passwordless login *)
      (if passwordless_login_enabled settings
       then _ <- await (signup (signup_of_email (login_email user_login))) ;;
            ret tt
       else ret tt) ;;;
      if negb (truthy_str (password user)) then raise PasswordRequiredError
      else
        (* Verify the password *)
        ok <- call_verify_password (login_password user_login)
                                   (default "" (password user)) ;;
        if negb ok then raise InvalidCredentialsError
        else
          (* Generate a jwt for the user and return *)
          call_generate_jwt_token (PyUser user)
  end.

End UserService.

(** Running a service call: its outcome and the world afterwards. *)
Definition result_of {A} (c : M A) (w : World) : outcome A := fst (c w).
Definition world_after {A} (c : M A) (w : World) : World := snd (c w).

Definition is_success {A} (o : outcome A) : bool :=
  match o with
  | Returns _ => true
  | Raises _ => false
  end.

(** The executed calls of [c] alone, oldest first. *)
Definition calls_of {A} (c : M A) (w : World) : list Call :=
  rev (take (length (calls (world_after c w)) - length (calls w))
            (calls (world_after c w))).

Definition is_create_call (c : Call) : bool :=
  match c with
  | CallCreateUser _ => true
  | _ => false
  end.

Definition is_issue_call (c : Call) : bool :=
  match c with
  | CallGenerateJwt => true
  | _ => false
  end.

(** ** The token issuer and its validation counterpart *)
Module Jwt.

(** Modelled from the spec: the session credential of [utils/jwt.py], the
    module the service imports its issuer from.  A credential carries the claims (subject, audience, issued-at,
    expiry, algorithm tag) and a signature under the configured key; the
    expiry is issued-at plus the configured time to live, which differs for
    access and refresh tokens; validation tells [Expired], [BadSignature]
    and [Malformed] apart.  Instants are in seconds. *)
Inductive TokenKind := Access | Refresh.

(** Modelled from the spec: the claims inside a session credential. *)
Record Claims := mkClaims {
  sub : string;
  aud : string;
  iat : Z;
  exp : Z;
  alg : string
}.

(** Modelled from the spec: the encoded credential, either text that does
    not decode at all, or the decoded claims with the signature that came
    with them. *)
Inductive Token :=
| Garbage (raw : string)
| Signed (claims : Claims) (signature : string).

(** Modelled from the spec: the failures of validation. *)
Inductive TokenError := Expired | BadSignature | Malformed.

(** Modelled from the spec: the AuthResult, that is the credential, its
    declared type and its expiry. *)
Record AuthResult := mkAuthResult {
  credential : Token;
  token_type : TokenKind;
  expires_at : Z
}.

(** Modelled from the spec: the configured time to live of a credential of
    the given kind, the settings giving it in minutes. *)
Definition ttl_seconds (settings : Settings) (kind : TokenKind) : Z :=
  60 * match kind with
       | Access => jwt_access_token_expire_minutes settings
       | Refresh => jwt_refresh_token_expire_minutes settings
       end.

Section Issuer.

(** The keyed signature over the claims: [sign key claims]. *)
Variable sign : string -> Claims -> string.

(** Modelled from the spec: the claims of a credential issued at [now] for
    the user, whose identity is the login key, the email. *)
Definition claims_for (settings : Settings) (now : Z) (u : User)
    (kind : TokenKind) : Claims :=
  {| sub := email u;
     aud := jwt_audience settings;
     iat := now;
     exp := now + ttl_seconds settings kind;
     alg := jwt_algorithm settings |}.

(** Modelled from the spec: the issuer of [utils/jwt.py], giving the encoded
    credential and the claims used to build it. *)
Definition issue (settings : Settings) (now : Z) (u : User)
    (kind : TokenKind) : Token * Claims :=
  let c := claims_for settings now u kind in
  (Signed c (sign (jwt_secret_key settings) c), c).

(** Modelled from the spec: the validation counterpart.  The signature is
    checked under the configured key first, then the expiry. *)
Definition validate (settings : Settings) (now : Z) (t : Token)
  : TokenError + Claims :=
  match t with
  | Garbage _ => inl Malformed
  | Signed c s =>
      if negb (String.eqb s (sign (jwt_secret_key settings) c))
      then inl BadSignature
      else if (exp c <=? now)%Z then inl Expired
      else inr c
  end.

(** Modelled from the spec: [generate_jwt_token(user, settings)] of
    [utils/jwt.py], an access credential for a user row; anything else has
    no identity to read. *)
Definition generate (now : Z) (user : pyobj) (settings : Settings)
  : outcome AuthResult :=
  match user with
  | PyUser u =>
      Returns {| credential := fst (issue settings now u Access);
                 token_type := Access;
                 expires_at := exp (snd (issue settings now u Access)) |}
  | _ => Raises (PyError "AttributeError")
  end.

End Issuer.

End Jwt.

(** ** A reference implementation of the collaborators

    Stand-ins used to run the service on concrete inputs: the hash is a
    tagged copy of the password (the real one is salted and memory-hard), and
    the signature is a tagged copy of key and subject. *)
Module Reference.

Definition tag : string := "$2b$".

Definition ref_hash (pw : string) : string := tag ++ pw.

Definition ref_verify (pw hashed : string) : outcome bool :=
  if String.prefix tag hashed
  then Returns (String.eqb (ref_hash pw) hashed)
  else Raises (PyError "CorruptCredentialError").

Definition ref_sign (key : string) (c : Jwt.Claims) : string :=
  key ++ "." ++ Jwt.sub c.

#[export] Instance ref_utils : Utils Jwt.AuthResult := {|
  hash_password := ref_hash;
  verify_password := ref_verify;
  generate_jwt_token := Jwt.generate ref_sign
|}.

Definition passwordless_settings : Settings :=
  {| jwt_secret_key := "k";
     jwt_algorithm := "HS256";
     jwt_access_token_expire_minutes := 30;
     jwt_refresh_token_expire_minutes := 60 * 24 * 30;
     jwt_audience := "fastapi-auth";
     passwordless_login_enabled := true;
     email_verification_required := false |}.

Definition empty_world : World :=
  {| db := {| users := ∅; next_id := 1 |}; clock := 1000; calls := [] |}.

(** A stored account with a password hash, and one without. *)
Definition alice : User :=
  {| id := 1; name := None; email := "a@x.com"; profile_pic := None;
     password := Some (ref_hash "p1") |}.

Definition carol : User :=
  {| id := 2; name := None; email := "c@x.com"; profile_pic := None;
     password := None |}.

Definition world2 : World :=
  {| db := {| users := <["c@x.com" := carol]> (<["a@x.com" := alice]> ∅);
              next_id := 3 |};
     clock := 1000;
     calls := [] |}.

End Reference.

(** ** [settings.py]: the environment file and the settings singleton *)
Module SettingsPy.

(** [pathlib] paths, as pure POSIX paths: the components below the root, or
    below the current directory. *)
Inductive Path :=
| Abs (parts : list string)
| Rel (parts : list string).

#[export] Instance Path_eq_dec : EqDecision Path.
Proof. solve_decision. Defined.

Definition is_absolute (p : Path) : bool :=
  match p with
  | Abs _ => true
  | Rel _ => false
  end.

(** [a / b]: an absolute right operand replaces the left one. *)
Definition joinpath (a b : Path) : Path :=
  match b, a with
  | Abs _, _ => b
  | Rel r, Abs l => Abs (l ++ r)
  | Rel r, Rel l => Rel (l ++ r)
  end.

(** [p.parent]; the root and the current directory are their own parent. *)
Definition parent (p : Path) : Path :=
  match p with
  | Abs l => Abs (removelast l)
  | Rel l => Rel (removelast l)
  end.

(** The file system the module works on: regular files with their text, and
    directories, each at a location, that is the list of names leading to it
    from the root; the current directory is one of these.  Symbolic links,
    permissions and device errors are left out.  The root always exists. *)
Record FS := mkFS {
  cwd : list string;
  files : gmap (list string) string;
  dirs : gset (list string)
}.

Definition file_at (fs : FS) (loc : list string) : bool :=
  bool_decide (is_Some (files fs !! loc)).

Definition dir_at (fs : FS) (loc : list string) : bool :=
  match loc with
  | [] => true
  | _ => bool_decide (loc ∈ dirs fs)
  end.

Inductive errno := ENOENT | ENOTDIR.

(** One component of a path, taken from the directory [cur]: [..] leads to
    the directory above, a name to the entry below. *)
Definition step_into (cur : list string) (name : string) : list string :=
  if String.eqb name ".." then removelast cur else cur ++ [name].

(** The path walk of the operating system, from the directory [cur]: every
    component but the last must lead to a directory; the result is the
    location the path names, which may hold something or nothing. *)
Fixpoint walk (fs : FS) (cur : list string) (parts : list string)
  : errno + list string :=
  match parts with
  | [] => inr cur
  | name :: rest =>
      match rest with
      | [] => inr (step_into cur name)
      | _ :: _ =>
          if dir_at fs (step_into cur name)
          then walk fs (step_into cur name) rest
          else if file_at fs (step_into cur name) then inl ENOTDIR
               else inl ENOENT
      end
  end.

Definition locate (fs : FS) (p : Path) : errno + list string :=
  match p with
  | Abs parts => walk fs [] parts
  | Rel parts => walk fs (cwd fs) parts
  end.

(** [p.is_dir()] and [p.exists()]: a walk that fails counts as absent. *)
Definition is_dir (fs : FS) (p : Path) : bool :=
  match locate fs p with
  | inr loc => dir_at fs loc
  | inl _ => false
  end.

Definition path_exists (fs : FS) (p : Path) : bool :=
  match locate fs p with
  | inr loc => file_at fs loc || dir_at fs loc
  | inl _ => false
  end.

(** The [OSError]s of the calls below. *)
Inductive oserror :=
| FileNotFoundError
| NotADirectoryError
| FileExistsError
| IsADirectoryError.

Definition exn_of (e : oserror) : exn :=
  PyError match e with
          | FileNotFoundError => "FileNotFoundError"
          | NotADirectoryError => "NotADirectoryError"
          | FileExistsError => "FileExistsError"
          | IsADirectoryError => "IsADirectoryError"
          end.

Definition oserror_of (e : errno) : oserror :=
  match e with
  | ENOENT => FileNotFoundError
  | ENOTDIR => NotADirectoryError
  end.

Definition add_dir (fs : FS) (loc : list string) : FS :=
  {| cwd := cwd fs; files := files fs; dirs := dirs fs ∪ {[ loc ]} |}.

(** [os.mkdir(p)]: makes the one directory [p] names. *)
Definition os_mkdir (fs : FS) (p : Path) : oserror + FS :=
  match locate fs p with
  | inl e => inl (oserror_of e)
  | inr loc =>
      if file_at fs loc || dir_at fs loc then inl FileExistsError
      else inr (add_dir fs loc)
  end.

(** [p.mkdir(parents=False, exist_ok=True)]: an error other than a missing
    directory is let go when [p] is a directory. *)
Definition mkdir_flat (fs : FS) (p : Path) : oserror + FS :=
  match os_mkdir fs p with
  | inr made => inr made
  | inl FileNotFoundError => inl FileNotFoundError
  | inl e => if is_dir fs p then inr fs else inl e
  end.

(** [p.mkdir(parents=True, exist_ok=True)] as [pathlib] does it, for the
    path [anchor (rev rparts)]: when a directory on the way is missing, the
    parent, the path without its last component, is made first, and then
    the directory itself. *)
Fixpoint mkdir_up (anchor : list string -> Path) (fs : FS)
    (rparts : list string) : oserror + FS :=
  match os_mkdir fs (anchor (rev rparts)) with
  | inr made => inr made
  | inl FileNotFoundError =>
      match rparts with
      | [] => inl FileNotFoundError
      | _ :: above =>
          match mkdir_up anchor fs above with
          | inl e => inl e
          | inr made => mkdir_flat made (anchor (rev rparts))
          end
      end
  | inl e => if is_dir fs (anchor (rev rparts)) then inr fs else inl e
  end.

Definition mkdir_parents (fs : FS) (d : Path) : outcome FS :=
  match match d with
        | Abs parts => mkdir_up Abs fs (rev parts)
        | Rel parts => mkdir_up Rel fs (rev parts)
        end with
  | inr made => Returns made
  | inl e => Raises (exn_of e)
  end.

(** [p.write_text(text)]: opens the file [p] names for writing, creating or
    truncating it, and stores the text. *)
Definition write_text (fs : FS) (p : Path) (text : string) : outcome FS :=
  match locate fs p with
  | inl e => Raises (exn_of (oserror_of e))
  | inr loc =>
      if dir_at fs loc then Raises (exn_of IsADirectoryError)
      else if negb (dir_at fs (removelast loc))
           then Raises (exn_of FileNotFoundError)
           else Returns {| cwd := cwd fs;
                           files := <[loc := text]> (files fs);
                           dirs := dirs fs |}
  end.

(** The components of a path. *)
Definition parts_of (p : Path) : list string :=
  match p with
  | Abs parts => parts
  | Rel parts => parts
  end.

(** A file system in order: whatever holds a file or is a directory lies in
    a directory. *)
Definition in_order (fs : FS) : bool :=
  forallb (fun loc => dir_at fs (removelast loc))
          ((map_to_list (files fs)).*1 ++ elements (dirs fs)).

(** No component of the path is [..]. *)
Definition no_dotdot (p : Path) : bool :=
  forallb (fun name => negb (String.eqb name "..")) (parts_of p).

(** The process the module lives in: [os.environ], the file system, and the
    module's globals: the constants [ENVIRONMENT] and [BASE_DIR] set at
    import, [_env_file_path], [_settings], the [env_file] entry of
    [Settings.model_config], and the one entry of the [lru_cache] around
    [get_settings]. *)
Record Process := mkProcess {
  environ : gmap string string;
  fs : FS;
  ENVIRONMENT : string;
  BASE_DIR : Path;
  _env_file_path : option Path;
  _settings : option Settings;
  model_config : option Path;
  cache : option Settings
}.

Definition St (A : Type) : Type := Process -> outcome A * Process.

Definition set_fs (f : FS) (m : Process) : Process :=
  {| environ := environ m; fs := f; ENVIRONMENT := ENVIRONMENT m;
     BASE_DIR := BASE_DIR m; _env_file_path := _env_file_path m;
     _settings := _settings m; model_config := model_config m;
     cache := cache m |}.

Definition set_env_file (p : option Path) (m : Process) : Process :=
  {| environ := environ m; fs := fs m; ENVIRONMENT := ENVIRONMENT m;
     BASE_DIR := BASE_DIR m; _env_file_path := p;
     _settings := _settings m; model_config := model_config m;
     cache := cache m |}.

Definition set_settings (s : option Settings) (m : Process) : Process :=
  {| environ := environ m; fs := fs m; ENVIRONMENT := ENVIRONMENT m;
     BASE_DIR := BASE_DIR m; _env_file_path := _env_file_path m;
     _settings := s; model_config := model_config m;
     cache := cache m |}.

Definition set_model_config (p : option Path) (m : Process) : Process :=
  {| environ := environ m; fs := fs m; ENVIRONMENT := ENVIRONMENT m;
     BASE_DIR := BASE_DIR m; _env_file_path := _env_file_path m;
     _settings := _settings m; model_config := p;
     cache := cache m |}.

Definition set_cache (c : option Settings) (m : Process) : Process :=
  {| environ := environ m; fs := fs m; ENVIRONMENT := ENVIRONMENT m;
     BASE_DIR := BASE_DIR m; _env_file_path := _env_file_path m;
     _settings := _settings m; model_config := model_config m;
     cache := c |}.

(** The outside world changing under the process: other environment
    variables, other files. *)
Definition set_outside (e : gmap string string) (f : FS) (m : Process)
  : Process :=
  {| environ := e; fs := f; ENVIRONMENT := ENVIRONMENT m;
     BASE_DIR := BASE_DIR m; _env_file_path := _env_file_path m;
     _settings := _settings m; model_config := model_config m;
     cache := cache m |}.

Definition newline : string := String (Ascii.ascii_of_nat 10) EmptyString.

(** The text written into a fresh environment file (lines 48-52). *)
Definition banner (environment : string) : string :=
  "# Environment configuration file for " ++ environment ++ " environment"
  ++ newline
  ++ "# Add your configuration variables here" ++ newline
  ++ "# This file was auto-generated" ++ newline.

(** What the module takes from its libraries: [Path(text)] of [pathlib], and
    [Settings()] of [pydantic_settings], which reads the environment and the
    file named by [model_config] and raises when a required field is
    missing. *)
Class Libraries := {
  Path_of : string -> Path;
  load_settings : gmap string string -> option Path -> FS -> outcome Settings
}.

Section Module.

Context {L : Libraries}.

(** Lines 31-43 of [get_env_file_path]: the choice among the programmatic
    override, [AUTH_ENV_FILE] and the [ENVIRONMENT]-based name, then the
    resolution of a relative path against [BASE_DIR]. *)
Definition chosen_env_file (m : Process) : Path :=
  let env_file :=
    match _env_file_path m with
    | Some p => p
    | None =>
        if truthy_str (environ m !! "AUTH_ENV_FILE")
        then Path_of (default "" (environ m !! "AUTH_ENV_FILE"))
        else joinpath (BASE_DIR m)
                      (Path_of ("." ++ ENVIRONMENT m ++ ".env"))
    end in
  if negb (is_absolute env_file) then joinpath (BASE_DIR m) env_file
  else env_file.

(** [def get_env_file_path() -> Path], with lines 45-54: the file is created
    when it does not exist. *)
Definition get_env_file_path : St Path :=
  fun m =>
    let env_file := chosen_env_file m in
    if negb (path_exists (fs m) env_file) then
      match mkdir_parents (fs m) (parent env_file) with
      | Raises e => (Raises e, m)
      | Returns made =>
          match write_text made env_file (banner (ENVIRONMENT m)) with
          | Raises e => (Raises e, set_fs made m)
          | Returns written => (Returns env_file, set_fs written m)
          end
      end
    else (Returns env_file, m).

(** [get_settings.cache_clear()]. *)
Definition cache_clear : St unit :=
  fun m => (Returns tt, set_cache None m).

(** [def set_env_file_path(path: Union[str, Path]) -> None]. *)
Definition set_env_file_path (path : string + Path) : St unit :=
  fun m =>
    let p := match path with inl text => Path_of text | inr p => p end in
    cache_clear (set_env_file (Some p) m).

(** [def configure(settings: Settings) -> None]. *)
Definition configure (settings : Settings) : St unit :=
  fun m => cache_clear (set_settings (Some settings) m).

(** The body of [get_settings], under the decorator. *)
Definition get_settings_body : St Settings :=
  fun m =>
    match _settings m with
    | Some s => (Returns s, m)
    | None =>
        match get_env_file_path m with
        | (Raises e, m1) => (Raises e, m1)
        | (Returns p, m1) =>
            let m2 := set_model_config (Some p) m1 in
            (load_settings (environ m2) (model_config m2) (fs m2), m2)
        end
    end.

(** [@lru_cache def get_settings() -> Settings]: a call without arguments
    has one cache entry; a value that was returned is kept, an exception is
    not. *)
Definition get_settings : St Settings :=
  fun m =>
    match cache m with
    | Some s => (Returns s, m)
    | None =>
        match get_settings_body m with
        | (Returns s, m1) => (Returns s, set_cache (Some s) m1)
        | (Raises e, m1) => (Raises e, m1)
        end
    end.

(** Importing the module (lines 9-13, 121-127): the constants are read, the
    override and the singleton start empty, and [model_config] is set from a
    first call of [get_env_file_path]. *)
Definition import_module (env : gmap string string) (f : FS) (base : Path)
  : outcome unit * Process :=
  let m := {| environ := env; fs := f;
              ENVIRONMENT := default "dev" (env !! "ENVIRONMENT");
              BASE_DIR := base;
              _env_file_path := None; _settings := None;
              model_config := None; cache := None |} in
  match get_env_file_path m with
  | (Raises e, m1) => (Raises e, m1)
  | (Returns p, m1) => (Returns tt, set_model_config (Some p) m1)
  end.

(** What can happen to the module after [configure]: calls of its other
    functions, whose results the caller may drop, and changes of the
    environment and the files from outside. *)
Inductive step :=
| CallGetEnvFilePath
| CallSetEnvFilePath (path : string + Path)
| CallGetSettings
| Outside (env : gmap string string) (f : FS).

Definition run_step (m : Process) (s : step) : Process :=
  match s with
  | CallGetEnvFilePath => snd (get_env_file_path m)
  | CallSetEnvFilePath path => snd (set_env_file_path path m)
  | CallGetSettings => snd (get_settings m)
  | Outside env f => set_outside env f m
  end.

Definition run_steps (m : Process) (steps : list step) : Process :=
  foldl run_step m steps.

(** The state [configure(s)] sets up: the configured object, and a cache
    that is empty or holds it. *)
Definition configured (s : Settings) (m : Process) : Prop :=
  _settings m = Some s /\ (cache m = None \/ cache m = Some s).

End Module.

End SettingsPy.

(** ** [database/db.py]: the session generator *)
Module Db.

(** What travels up a Python stack: an [Exception], which the handler of
    [get_session] catches, or another [BaseException] ([GeneratorExit],
    [CancelledError], [KeyboardInterrupt]), which it does not. *)
Inductive raised :=
| AnException (e : exn)
| BaseOnly (cls : string).

(** [class DatabaseSession]: the fields the generator reads.  The engine and
    the session factory built in [__init__] act through the session context
    manager given to a run. *)
Record DatabaseSession := mkDatabaseSession {
  config : Settings;
  fail_silently : bool
}.

(** [DatabaseSession(config)]: [fail_silently] defaults to [False]. *)
Definition new_DatabaseSession (settings : Settings) : DatabaseSession :=
  {| config := settings; fail_silently := false |}.

(** What the consumer does with the generator suspended at its [yield]:
    resumes it, or throws into it ([aclose] throws [GeneratorExit]). *)
Inductive consumer :=
| Resume
| Throw (x : raised).

(** One run of the generator, start to finish: the session it yielded, the
    exception that left its body (none when it finished), and the error
    records it logged, oldest first.  What the generator object does with an
    exception that has left the body (a [StopIteration] becomes a
    [RuntimeError]) is not part of the function. *)
Record Run (Session : Type) := mkRun {
  yielded : option Session;
  escaped : option raised;
  logged : list string
}.
Arguments mkRun {Session} _ _ _.
Arguments yielded {Session} _.
Arguments escaped {Session} _.
Arguments logged {Session} _.

Section Generator.

Variable Session : Type.

(** [str(e)] and [traceback.format_exc()]. *)
Variable str_of : exn -> string.
Variable format_exc : exn -> string.

(** The [except Exception as e] clause (lines 25-29). *)
Definition handle (self : DatabaseSession) (x : raised)
  : option raised * list string :=
  match x with
  | AnException e =>
      (if negb (fail_silently self) then Some (AnException e) else None,
       ["Failed to get database session: " ++ str_of e; format_exc e])
  | BaseOnly _ => (Some x, [])
  end.

(** [async def get_session(self)].  [enter] is what [self.SessionLocal()]
    does on entry: it gives a session or raises.  [leave] is what it does on
    exit, from the exception in flight (none on a normal exit) to the one
    that leaves the [async with] block. *)
Definition get_session (self : DatabaseSession)
    (enter : raised + Session) (use : Session -> consumer)
    (leave : option raised -> option raised) : Run Session :=
  match enter with
  | inl x =>
      {| yielded := None;
         escaped := fst (handle self x);
         logged := snd (handle self x) |}
  | inr session =>
      let in_flight := match use session with
                       | Resume => None
                       | Throw x => Some x
                       end in
      match leave in_flight with
      | None => {| yielded := Some session; escaped := None; logged := [] |}
      | Some x =>
          {| yielded := Some session;
             escaped := fst (handle self x);
             logged := snd (handle self x) |}
      end
  end.

(** The module-level [def get_session(settings)], the dependency handed to
    the web framework. *)
Definition get_session_dependency (settings : Settings) :=
  get_session (new_DatabaseSession settings).

End Generator.

End Db.

(** ** More fixtures for concrete runs *)
Module Fixtures.

Import Reference SettingsPy.

(** An account whose stored hash the reference verifier cannot read, and
    one whose stored hash is the empty string. *)
Definition dave : User :=
  {| id := 3; name := None; email := "d@x.com"; profile_pic := None;
     password := Some "plain" |}.

Definition erin : User :=
  {| id := 4; name := None; email := "e@x.com"; profile_pic := None;
     password := Some "" |}.

Definition world4 : World :=
  {| db := {| users := <["e@x.com" := erin]>
                         (<["d@x.com" := dave]> (users (db world2)));
              next_id := 5 |};
     clock := 1000;
     calls := [CallGetUserByEmail "z@x.com"] |}.

(** The text between the slashes of a path. *)
Fixpoint components (s cur : string) : list string :=
  match s with
  | EmptyString => [cur]
  | String c rest =>
      if Ascii.eqb c (Ascii.ascii_of_nat 47) then cur :: components rest ""
      else components rest (cur ++ String c EmptyString)
  end.

(** A stand-in for [Path(text)]: empty and [.] components are dropped. *)
Definition ref_Path_of (s : string) : Path :=
  let parts := List.filter
                 (fun x => negb (String.eqb x "") && negb (String.eqb x "."))
                 (components s "") in
  if String.prefix "/" s then Abs parts else Rel parts.

(** A stand-in for [Settings()]: the text of the environment file is taken
    as the secret key, and a missing file leaves the required fields
    unset. *)
Definition ref_load (env : gmap string string) (p : option Path) (f : FS)
  : outcome Settings :=
  match p with
  | Some q =>
      match locate f q with
      | inr loc =>
          match files f !! loc with
          | Some text => Returns (default_settings text)
          | None => Raises (PyError "ValidationError")
          end
      | inl _ => Raises (PyError "ValidationError")
      end
  | None => Raises (PyError "ValidationError")
  end.

#[export] Instance ref_libraries : Libraries := {|
  Path_of := ref_Path_of;
  load_settings := ref_load
|}.

(** A process right after start: an application directory with nothing in
    it. *)
Definition app_dir : Path := Abs ["srv"; "app"].

Definition fs0 : FS :=
  {| cwd := ["srv"; "app"];
     files := ∅;
     dirs := {[ ["srv"]; ["srv"; "app"] ]} |}.

(** The same with one file in the application directory. *)
Definition fs1 : FS :=
  {| cwd := ["srv"; "app"];
     files := {[ ["srv"; "app"; "x.env"] := "SECRET=1" ]};
     dirs := {[ ["srv"]; ["srv"; "app"] ]} |}.

(** A process whose [AUTH_ENV_FILE] goes through a directory that does not
    exist and back, to the file of [fs1]. *)
Definition proc1 : Process :=
  {| environ := {[ "AUTH_ENV_FILE" := "missing/../x.env" ]};
     fs := fs1;
     ENVIRONMENT := "dev";
     BASE_DIR := app_dir;
     _env_file_path := None;
     _settings := None;
     model_config := None;
     cache := None |}.

Definition proc0 : Process :=
  {| environ := {[ "AUTH_ENV_FILE" := "/etc/auth/prod.env" ]};
     fs := fs0;
     ENVIRONMENT := "dev";
     BASE_DIR := app_dir;
     _env_file_path := None;
     _settings := None;
     model_config := None;
     cache := None |}.

End Fixtures.

(** * Properties of the authentication service *)

(** Unfolds a service call down to the world it is run in. *)
Ltac run_service :=
  unfold result_of, world_after, log_user_in, signup_user,
    call_verify_password, call_generate_jwt_token, get_user_by_email,
    create_user, await, bind, tell, lift, raise, ret, get_clock;
  simpl.

Section ServiceFacts.

Context {JWT : Type} {U : Utils JWT}.
Implicit Types (settings : Settings) (w : World) (u : User).

(** The calls a computation adds are the new prefix of the log. *)
Lemma calls_of_prefix {A} (c : M A) w (new : list Call) :
  calls (world_after c w) = (new ++ calls w)%list ->
  calls_of c w = rev new.
Proof.
  intros E. unfold calls_of. rewrite E, length_app.
  replace (length new + length (calls w) - length (calls w))%nat
    with (length new) by lia.
  now rewrite take_app_length.
Qed.

(** Whatever the settings, the table and the request, [signup_user] stops
    at its duplicate check: the object it tests is a coroutine. *)
Lemma signup_user_run settings (user_signup : UserSignupSchema) w :
  signup_user settings user_signup w = (Raises DuplicateUserError, w).
Proof.
  unfold signup_user, bind.
  destruct (passwordless_login_enabled settings); reflexivity.
Qed.

(** The first step of [log_user_in]: the awaited lookup. *)
Lemma log_user_in_missing settings login w :
  users (db w) !! login_email login = None ->
  log_user_in settings login w =
    (Raises UserNotFoundError,
     log_call (CallGetUserByEmail (login_email login)) w).
Proof.
  intros E. unfold log_user_in, await, bind, get_user_by_email, tell.
  simpl. now rewrite E.
Qed.

(** With an account on file and passwordless mode on, [log_user_in] is the
    signup call for the same email, run after the lookup. *)
Lemma log_user_in_passwordless settings login w u :
  passwordless_login_enabled settings = true ->
  users (db w) !! login_email login = Some u ->
  log_user_in settings login w =
    signup_user settings (signup_of_email (login_email login))
      (log_call (CallGetUserByEmail (login_email login)) w).
Proof.
  intros P E. rewrite signup_user_run.
  unfold log_user_in, await, bind, get_user_by_email, tell. simpl.
  rewrite E, P. now rewrite signup_user_run.
Qed.

(** With passwordless mode off, [log_user_in] on a stored account goes
    straight to the password checks. *)
Lemma log_user_in_found settings login w u :
  passwordless_login_enabled settings = false ->
  users (db w) !! login_email login = Some u ->
  log_user_in settings login w =
    (if negb (truthy_str (password u)) then raise PasswordRequiredError
     else
       ok <- call_verify_password (login_password login)
                                  (default "" (password u)) ;;
       if negb ok then raise InvalidCredentialsError
       else call_generate_jwt_token settings (PyUser u))
      (log_call (CallGetUserByEmail (login_email login)) w).
Proof.
  intros P E. unfold log_user_in, await, get_user_by_email, tell.
  unfold bind at 1 2. simpl. rewrite E, P. reflexivity.
Qed.

(** [log_user_in] is [log_user_in_via] on the repository of the world and
    the service's own [signup_user]. *)
Lemma log_user_in_via_self settings login :
  log_user_in settings login
  = log_user_in_via settings get_user_by_email (signup_user settings) login.
Proof. reflexivity. Qed.

(** With passwordless mode on and a lookup that gives a row, whatever the
    repository and whatever [signup_user] is: the signup call for the
    login's email is the next thing run, in the world the lookup left; its
    exception is the outcome of the login, and only when it returns do the
    password checks follow. *)
Lemma log_user_in_via_passwordless settings
    (lookup : string -> Coroutine (option User))
    (signup : UserSignupSchema -> Coroutine JWT) login w u w1 :
  passwordless_login_enabled settings = true ->
  lookup (login_email login) w = (Returns (Some u), w1) ->
  log_user_in_via settings lookup signup login w =
    match signup (signup_of_email (login_email login)) w1 with
    | (Raises e, w2) => (Raises e, w2)
    | (Returns _, w2) =>
        (if negb (truthy_str (password u)) then raise PasswordRequiredError
         else
           ok <- call_verify_password (login_password login)
                                      (default "" (password u)) ;;
           if negb ok then raise InvalidCredentialsError
           else call_generate_jwt_token settings (PyUser u)) w2
    end.
Proof.
  intros P E. unfold log_user_in_via, await.
  unfold bind at 1. rewrite E, P.
  unfold bind at 1. unfold bind at 1.
  destruct (signup _ w1) as [[jwt|e] w2]; reflexivity.
Qed.

End ServiceFacts.

(** ** Login and signup, for any implementation of the collaborators *)
Section Service.

Context {JWT : Type} {U : Utils JWT}.
Implicit Types (settings : Settings) (w : World) (u : User).

(** C3: a signup whose email already belongs to a stored user fails with
    the duplicate-user error, status 400, and leaves the world as it was: no
    record is created and no repository call is executed. *)
Theorem signup_user_duplicate settings (user_signup : UserSignupSchema) w u :
  users (db w) !! signup_email user_signup = Some u ->
  result_of (signup_user settings user_signup) w = Raises DuplicateUserError
  /\ status_of DuplicateUserError = Some 400
  /\ world_after (signup_user settings user_signup) w = w.
Proof.
  intros _. unfold result_of, world_after.
  rewrite signup_user_run. repeat split.
Qed.

(** C4, as amended: with passwordless mode on, a login for an email that
    has a stored user invokes the signup path with that same email, right
    after the lookup and before any password check: whatever [signup_user]
    is, it is run on the signup built from the login's email, and its
    exception is the outcome of the login.  The service's own [signup_user]
    raises the duplicate-user error, status 400, so that is what the login
    raises; the only collaborator call executed is the lookup, the password
    is never verified, and the login does not succeed. *)
Theorem passwordless_login_existing_email settings login w u :
  passwordless_login_enabled settings = true ->
  users (db w) !! login_email login = Some u ->
  (forall signup : UserSignupSchema -> Coroutine JWT,
     log_user_in_via settings get_user_by_email signup login w =
       match signup (signup_of_email (login_email login))
                    (log_call (CallGetUserByEmail (login_email login)) w)
       with
       | (Raises e, w2) => (Raises e, w2)
       | (Returns _, w2) =>
           (if negb (truthy_str (password u))
            then raise PasswordRequiredError
            else
              ok <- call_verify_password (login_password login)
                                         (default "" (password u)) ;;
              if negb ok then raise InvalidCredentialsError
              else call_generate_jwt_token settings (PyUser u)) w2
       end)
  /\ log_user_in settings login w =
       log_user_in_via settings get_user_by_email (signup_user settings)
         login w
  /\ log_user_in settings login w =
       signup_user settings (signup_of_email (login_email login))
         (log_call (CallGetUserByEmail (login_email login)) w)
  /\ result_of (log_user_in settings login) w = Raises DuplicateUserError
  /\ status_of DuplicateUserError = Some 400
  /\ calls_of (log_user_in settings login) w =
       [CallGetUserByEmail (login_email login)]
  /\ is_success (result_of (log_user_in settings login) w) = false.
Proof.
  intros P E.
  assert (L : get_user_by_email (login_email login) w =
              (Returns (Some u),
               log_call (CallGetUserByEmail (login_email login)) w)).
  { unfold get_user_by_email, bind, tell. simpl. now rewrite E. }
  split.
  { intros signup.
    apply (log_user_in_via_passwordless settings get_user_by_email signup
             login w u _ P L). }
  split; [now rewrite log_user_in_via_self|].
  pose proof (log_user_in_passwordless settings login w u P E) as R.
  split; [exact R|].
  rewrite signup_user_run in R.
  unfold result_of. rewrite R. simpl. repeat split.
  apply (calls_of_prefix _ _ [CallGetUserByEmail (login_email login)]).
  unfold world_after. now rewrite R.
Qed.

(** C5: a login whose email has no stored user fails with the
    user-not-found error, status 404, whatever the settings. *)
Theorem log_user_in_unknown_email settings login w :
  users (db w) !! login_email login = None ->
  result_of (log_user_in settings login) w = Raises UserNotFoundError
  /\ status_of UserNotFoundError = Some 404.
Proof.
  intros E. unfold result_of.
  rewrite (log_user_in_missing settings login w E). split; reflexivity.
Qed.

(** C6, as amended: with passwordless mode off, a login for a stored user
    without a password hash fails with the password-required error,
    status 400. *)
Theorem log_user_in_password_required settings login w u :
  passwordless_login_enabled settings = false ->
  users (db w) !! login_email login = Some u ->
  password u = None ->
  result_of (log_user_in settings login) w = Raises PasswordRequiredError
  /\ status_of PasswordRequiredError = Some 400.
Proof.
  intros P E N. unfold result_of.
  rewrite (log_user_in_found settings login w u P E), N.
  split; reflexivity.
Qed.

(** C7, as amended: with passwordless mode off, a login for a stored user
    with a non-empty password hash against which the submitted password does
    not verify fails with the invalid-credentials error, status 401; the
    calls executed are the lookup and the verification, so no credential is
    issued. *)
Theorem log_user_in_invalid_credentials settings login w u hashed :
  passwordless_login_enabled settings = false ->
  users (db w) !! login_email login = Some u ->
  password u = Some hashed ->
  hashed <> "" ->
  verify_password (login_password login) hashed = Returns false ->
  result_of (log_user_in settings login) w = Raises InvalidCredentialsError
  /\ status_of InvalidCredentialsError = Some 401
  /\ calls_of (log_user_in settings login) w =
       [CallGetUserByEmail (login_email login); CallVerifyPassword]
  /\ existsb is_issue_call (calls_of (log_user_in settings login) w) = false.
Proof.
  intros P E S NE V.
  assert (T : truthy_str (Some hashed) = true)
    by (destruct hashed; [congruence | reflexivity]).
  assert (R : log_user_in settings login w =
              (Raises InvalidCredentialsError,
               log_call CallVerifyPassword
                 (log_call (CallGetUserByEmail (login_email login)) w))).
  { rewrite (log_user_in_found settings login w u P E), S, T.
    unfold call_verify_password, bind, tell, lift. simpl.
    now rewrite V. }
  assert (C : calls_of (log_user_in settings login) w =
              [CallGetUserByEmail (login_email login); CallVerifyPassword]).
  { apply (calls_of_prefix _ _
             [CallVerifyPassword; CallGetUserByEmail (login_email login)]).
    unfold world_after. now rewrite R. }
  unfold result_of at 1. rewrite R, C. repeat split.
Qed.

(** C9: with passwordless mode off, [log_user_in] leaves the repository as
    it found it on every path, returning or raising, and none of the calls
    it executes is [create_user]. *)
Theorem log_user_in_frame settings login w :
  passwordless_login_enabled settings = false ->
  db (world_after (log_user_in settings login) w) = db w
  /\ existsb is_create_call (calls_of (log_user_in settings login) w) = false.
Proof.
  intros P.
  assert (F : exists new,
             db (world_after (log_user_in settings login) w) = db w
             /\ calls (world_after (log_user_in settings login) w) =
                  (new ++ calls w)%list
             /\ existsb is_create_call new = false).
  { unfold world_after.
    destruct (users (db w) !! login_email login) as [u|] eqn:E.
    - rewrite (log_user_in_found settings login w u P E).
      unfold call_verify_password, call_generate_jwt_token,
        bind, tell, lift, raise, get_clock.
      destruct (truthy_str (password u)); simpl.
      + destruct (verify_password _ _) as [[|]|e]; simpl.
        * exists [CallGenerateJwt; CallVerifyPassword;
                  CallGetUserByEmail (login_email login)].
          repeat split.
        * exists [CallVerifyPassword;
                  CallGetUserByEmail (login_email login)].
          repeat split.
        * exists [CallVerifyPassword;
                  CallGetUserByEmail (login_email login)].
          repeat split.
      + exists [CallGetUserByEmail (login_email login)]. repeat split.
    - rewrite (log_user_in_missing settings login w E).
      exists [CallGetUserByEmail (login_email login)]. repeat split. }
  destruct F as (new & D & C & N). split; [exact D|].
  rewrite (calls_of_prefix _ _ new C).
  rewrite <- N. clear. induction new as [|c new IH]; [reflexivity|].
  simpl. rewrite existsb_app, IH. simpl.
  now rewrite orb_false_r, orb_comm.
Qed.

End Service.

(** ** The token round trip *)

(** C8: a credential issued for a user validates, at any instant before its
    expiry, to the claims it was issued with, whose subject is the identity
    of that user; from the instant the configured time to live has elapsed,
    validation fails with [Expired]. *)
Theorem token_roundtrip (sign : string -> Jwt.Claims -> string)
    (settings : Settings) (u : User) (kind : Jwt.TokenKind)
    (issued now later : Z) :
  now < issued + Jwt.ttl_seconds settings kind ->
  issued + Jwt.ttl_seconds settings kind <= later ->
  Jwt.validate sign settings now
    (fst (Jwt.issue sign settings issued u kind))
    = inr (snd (Jwt.issue sign settings issued u kind))
  /\ Jwt.sub (snd (Jwt.issue sign settings issued u kind)) = email u
  /\ Jwt.validate sign settings later
       (fst (Jwt.issue sign settings issued u kind))
     = inl Jwt.Expired.
Proof.
  intros Before After. unfold Jwt.issue, Jwt.validate. simpl.
  rewrite String.eqb_refl. simpl.
  destruct (Z.leb_spec (issued + Jwt.ttl_seconds settings kind) now);
    [lia|].
  destruct (Z.leb_spec (issued + Jwt.ttl_seconds settings kind) later);
    [|lia].
  repeat split.
Qed.

(** Validation tells the other two failures apart as well: text that does
    not decode is [Malformed], and claims under a signature that is not the
    one of the configured key are a [BadSignature], expired or not. *)
Lemma validate_garbage sign settings now raw :
  Jwt.validate sign settings now (Jwt.Garbage raw) = inl Jwt.Malformed.
Proof. reflexivity. Qed.

Lemma validate_forged sign settings now c s :
  s <> sign (jwt_secret_key settings) c ->
  Jwt.validate sign settings now (Jwt.Signed c s) = inl Jwt.BadSignature.
Proof.
  intros NE. unfold Jwt.validate.
  destruct (String.eqb_spec s (sign (jwt_secret_key settings) c));
    [contradiction | reflexivity].
Qed.

(** * The service on concrete inputs *)

Import Reference.

(** The service run with the reference collaborators on the two-account
    table: a good login, a wrong password, an unknown email. *)
Example login_alice_ok :
  is_success
    (result_of (log_user_in (default_settings "k") (mkLogin "a@x.com" "p1"))
               world2) = true
  /\ calls_of (log_user_in (default_settings "k") (mkLogin "a@x.com" "p1"))
              world2
     = [CallGetUserByEmail "a@x.com"; CallVerifyPassword; CallGenerateJwt].
Proof. split; reflexivity. Qed.

Example login_alice_wrong_password :
  result_of (log_user_in (default_settings "k") (mkLogin "a@x.com" "wrong"))
            world2 = Raises InvalidCredentialsError.
Proof. reflexivity. Qed.

(** C1: with passwordless mode on and no account for the email, the login
    does not provision anything: the guard on the missing user comes first
    and raises the user-not-found error, and the table stays empty. *)
Theorem passwordless_login_unknown_email :
  passwordless_login_enabled passwordless_settings = true
  /\ users (db empty_world) !! "new@x.com" = None
  /\ result_of (log_user_in passwordless_settings (mkLogin "new@x.com" ""))
               empty_world = Raises UserNotFoundError
  /\ calls_of (log_user_in passwordless_settings (mkLogin "new@x.com" ""))
              empty_world = [CallGetUserByEmail "new@x.com"]
  /\ db (world_after
           (log_user_in passwordless_settings (mkLogin "new@x.com" ""))
           empty_world) = db empty_world.
Proof. repeat split. Qed.

(** C2: a signup with a fresh email is turned down with the duplicate-user
    error, nothing is stored, and the login that follows with the same email
    and password finds no user. *)
Theorem signup_fresh_email_rejected :
  users (db empty_world) !! "a@x.com" = None
  /\ result_of (signup_user (default_settings "k")
                  (mkSignup "a@x.com" (Some "p1") None))
               empty_world = Raises DuplicateUserError
  /\ world_after (signup_user (default_settings "k")
                    (mkSignup "a@x.com" (Some "p1") None))
                 empty_world = empty_world
  /\ result_of (log_user_in (default_settings "k") (mkLogin "a@x.com" "p1"))
               (world_after (signup_user (default_settings "k")
                               (mkSignup "a@x.com" (Some "p1") None))
                            empty_world)
     = Raises UserNotFoundError.
Proof. repeat split. Qed.

(** C6, as stated, fails: with passwordless mode on, the login for the stored
    account without a password hash raises the duplicate-user error, not the
    password-required one. *)
Lemma password_required_counterexample :
  users (db world2) !! "c@x.com" = Some carol
  /\ password carol = None
  /\ result_of (log_user_in passwordless_settings (mkLogin "c@x.com" ""))
               world2 = Raises DuplicateUserError
  /\ result_of (log_user_in passwordless_settings (mkLogin "c@x.com" ""))
               world2 <> Raises PasswordRequiredError.
Proof. repeat split. discriminate. Qed.

(** C7, as stated, fails: with passwordless mode on, the login for the stored
    account with a wrong password raises the duplicate-user error, status
    400, not the invalid-credentials one. *)
Lemma invalid_credentials_counterexample :
  users (db world2) !! "a@x.com" = Some alice
  /\ password alice = Some (ref_hash "p1")
  /\ verify_password "wrong" (ref_hash "p1") = Returns false
  /\ result_of (log_user_in passwordless_settings (mkLogin "a@x.com" "wrong"))
               world2 = Raises DuplicateUserError
  /\ result_of (log_user_in passwordless_settings (mkLogin "a@x.com" "wrong"))
               world2 <> Raises InvalidCredentialsError.
Proof. repeat split. discriminate. Qed.

(** C4, as stated, fails in its middle: the duplicate check of the signup
    path does not find the stored user.  The signup path looks nothing up
    (the one lookup executed is the login's own, the signup call alone
    executes no call), and it raises the same error for an email that has no
    user at all. *)
Lemma duplicate_check_counterexample :
  passwordless_login_enabled passwordless_settings = true
  /\ users (db world2) !! "a@x.com" = Some alice
  /\ calls_of (log_user_in passwordless_settings (mkLogin "a@x.com" "p1"))
              world2 = [CallGetUserByEmail "a@x.com"]
  /\ calls_of (signup_user passwordless_settings (signup_of_email "a@x.com"))
              world2 = []
  /\ users (db world2) !! "new@x.com" = None
  /\ result_of (signup_user passwordless_settings
                  (signup_of_email "new@x.com")) world2
     = Raises DuplicateUserError.
Proof. repeat split. Qed.

(** ** The general statements at concrete inputs *)

Lemma signup_user_duplicate_witness :
  users (db world2) !! "a@x.com" = Some alice
  /\ result_of (signup_user (default_settings "k")
                  (mkSignup "a@x.com" (Some "p2") None))
               world2 = Raises DuplicateUserError
  /\ status_of DuplicateUserError = Some 400
  /\ world_after (signup_user (default_settings "k")
                    (mkSignup "a@x.com" (Some "p2") None))
                 world2 = world2.
Proof.
  split; [reflexivity|].
  apply (signup_user_duplicate (default_settings "k")
           (mkSignup "a@x.com" (Some "p2") None) world2 alice).
  reflexivity.
Defined.

Lemma passwordless_login_existing_email_witness :
  result_of (log_user_in passwordless_settings (mkLogin "a@x.com" "p1"))
            world2 = Raises DuplicateUserError
  /\ calls_of (log_user_in passwordless_settings (mkLogin "a@x.com" "p1"))
              world2 = [CallGetUserByEmail "a@x.com"]
  /\ log_user_in_via passwordless_settings get_user_by_email
       (fun user_signup =>
          raise (HTTPException 409 (signup_email user_signup)))
       (mkLogin "a@x.com" "p1") world2
     = (Raises (HTTPException 409 "a@x.com"),
        log_call (CallGetUserByEmail "a@x.com") world2).
Proof.
  destruct (passwordless_login_existing_email passwordless_settings
              (mkLogin "a@x.com" "p1") world2 alice)
    as (V & _ & _ & R & _ & C & _); [reflexivity | reflexivity |].
  split; [exact R|]. split; [exact C|].
  rewrite (V (fun user_signup =>
                raise (HTTPException 409 (signup_email user_signup)))).
  reflexivity.
Defined.

Lemma log_user_in_unknown_email_witness :
  users (db world2) !! "b@x.com" = None
  /\ result_of (log_user_in (default_settings "k") (mkLogin "b@x.com" "x"))
               world2 = Raises UserNotFoundError
  /\ status_of UserNotFoundError = Some 404.
Proof.
  split; [reflexivity|].
  apply (log_user_in_unknown_email (default_settings "k")
           (mkLogin "b@x.com" "x") world2).
  reflexivity.
Defined.

Lemma log_user_in_password_required_witness :
  result_of (log_user_in (default_settings "k") (mkLogin "c@x.com" "x"))
            world2 = Raises PasswordRequiredError
  /\ status_of PasswordRequiredError = Some 400.
Proof.
  apply (log_user_in_password_required (default_settings "k")
           (mkLogin "c@x.com" "x") world2 carol); reflexivity.
Defined.

Lemma log_user_in_invalid_credentials_witness :
  result_of (log_user_in (default_settings "k") (mkLogin "a@x.com" "wrong"))
            world2 = Raises InvalidCredentialsError
  /\ calls_of (log_user_in (default_settings "k") (mkLogin "a@x.com" "wrong"))
              world2 = [CallGetUserByEmail "a@x.com"; CallVerifyPassword].
Proof.
  destruct (log_user_in_invalid_credentials (default_settings "k")
              (mkLogin "a@x.com" "wrong") world2 alice (ref_hash "p1"))
    as (R & _ & C & _);
    [reflexivity | reflexivity | reflexivity | discriminate | reflexivity |].
  split; [exact R | exact C].
Defined.

Lemma log_user_in_frame_witness :
  db (world_after (log_user_in (default_settings "k")
                     (mkLogin "a@x.com" "p1")) world2) = db world2
  /\ existsb is_create_call
       (calls_of (log_user_in (default_settings "k")
                    (mkLogin "a@x.com" "p1")) world2) = false.
Proof.
  apply (log_user_in_frame (default_settings "k")
           (mkLogin "a@x.com" "p1") world2).
  reflexivity.
Defined.

Lemma token_roundtrip_witness :
  Jwt.validate ref_sign (default_settings "k") 1500
    (fst (Jwt.issue ref_sign (default_settings "k") 1000 alice Jwt.Access))
    = inr (Jwt.claims_for (default_settings "k") 1000 alice Jwt.Access)
  /\ Jwt.validate ref_sign (default_settings "k") 2800
       (fst (Jwt.issue ref_sign (default_settings "k") 1000 alice Jwt.Access))
     = inl Jwt.Expired.
Proof.
  destruct (token_roundtrip ref_sign (default_settings "k") alice Jwt.Access
              1000 1500 2800) as (V & _ & X);
    [vm_compute; reflexivity | vm_compute; discriminate |].
  split; [exact V | exact X].
Defined.

(** * Further properties of [services/user_service.py] *)

Section ServiceMore.

Context {JWT : Type} {U : Utils JWT}.
Implicit Types (settings : Settings) (w : World) (u : User).

(** Every run of [log_user_in] leaves the table and the clock alone and adds
    to the log the lookup, then possibly the verification, then possibly the
    issuing, in that order (the log is newest first). *)
Lemma log_user_in_world settings login w :
  exists new,
    world_after (log_user_in settings login) w =
      {| db := db w; clock := clock w; calls := (new ++ calls w)%list |}
    /\ (new = [CallGetUserByEmail (login_email login)]
        \/ new = [CallVerifyPassword; CallGetUserByEmail (login_email login)]
        \/ new = [CallGenerateJwt; CallVerifyPassword;
                  CallGetUserByEmail (login_email login)]).
Proof.
  unfold world_after.
  destruct (users (db w) !! login_email login) as [u|] eqn:E.
  - destruct (passwordless_login_enabled settings) eqn:P.
    + rewrite (log_user_in_passwordless settings login w u P E),
        signup_user_run.
      exists [CallGetUserByEmail (login_email login)]. split; auto.
    + rewrite (log_user_in_found settings login w u P E).
      unfold call_verify_password, call_generate_jwt_token,
        bind, tell, lift, raise, get_clock.
      destruct (truthy_str (password u)); simpl.
      * destruct (verify_password _ _) as [[|]|e]; simpl.
        -- exists [CallGenerateJwt; CallVerifyPassword;
                   CallGetUserByEmail (login_email login)].
           split; auto.
        -- exists [CallVerifyPassword;
                   CallGetUserByEmail (login_email login)].
           split; auto.
        -- exists [CallVerifyPassword;
                   CallGetUserByEmail (login_email login)].
           split; auto.
      * exists [CallGetUserByEmail (login_email login)]. split; auto.
  - rewrite (log_user_in_missing settings login w E).
    exists [CallGetUserByEmail (login_email login)]. split; auto.
Qed.

(** With passwordless mode off and a stored user whose hash is not empty,
    [log_user_in] is decided by the verifier's answer. *)
Lemma log_user_in_verified settings login w u hashed :
  passwordless_login_enabled settings = false ->
  users (db w) !! login_email login = Some u ->
  password u = Some hashed ->
  hashed <> "" ->
  log_user_in settings login w =
    match verify_password (login_password login) hashed with
    | Returns true =>
        (generate_jwt_token (clock w) (PyUser u) settings,
         log_call CallGenerateJwt
           (log_call CallVerifyPassword
              (log_call (CallGetUserByEmail (login_email login)) w)))
    | Returns false =>
        (Raises InvalidCredentialsError,
         log_call CallVerifyPassword
           (log_call (CallGetUserByEmail (login_email login)) w))
    | Raises e =>
        (Raises e,
         log_call CallVerifyPassword
           (log_call (CallGetUserByEmail (login_email login)) w))
    end.
Proof.
  intros P E S NE.
  assert (T : truthy_str (Some hashed) = true)
    by (destruct hashed; [congruence | reflexivity]).
  rewrite (log_user_in_found settings login w u P E), S, T.
  unfold call_verify_password, call_generate_jwt_token,
    bind, tell, lift, raise, get_clock. simpl.
  destruct (verify_password _ _) as [[|]|e]; reflexivity.
Qed.

(** With passwordless mode off and a stored user whose password column is
    falsy, [log_user_in] stops at the password-required error. *)
Lemma log_user_in_falsy_run settings login w u :
  passwordless_login_enabled settings = false ->
  users (db w) !! login_email login = Some u ->
  truthy_str (password u) = false ->
  log_user_in settings login w =
    (Raises PasswordRequiredError,
     log_call (CallGetUserByEmail (login_email login)) w).
Proof.
  intros P E T.
  rewrite (log_user_in_found settings login w u P E), T. reflexivity.
Qed.

(** With passwordless mode on, [log_user_in] raises right after the
    lookup. *)
Lemma log_user_in_passwordless_run settings login w :
  passwordless_login_enabled settings = true ->
  exists e,
    (users (db w) !! login_email login = None -> e = UserNotFoundError)
    /\ (forall u, users (db w) !! login_email login = Some u ->
        e = DuplicateUserError)
    /\ log_user_in settings login w =
         (Raises e, log_call (CallGetUserByEmail (login_email login)) w).
Proof.
  intros P.
  destruct (users (db w) !! login_email login) as [u|] eqn:E.
  - exists DuplicateUserError. repeat split; [discriminate|].
    rewrite (log_user_in_passwordless settings login w u P E).
    apply signup_user_run.
  - exists UserNotFoundError. repeat split; [discriminate|].
    apply (log_user_in_missing settings login w E).
Qed.

(** A successful login: with passwordless mode off, a stored user with a
    non-empty hash and a password that verifies, [log_user_in] returns just
    what the issuer gives for the stored row at the instant of the call (its
    exception, if it raises one); the table is unchanged and the calls are
    the lookup, the verification and the issuing, in this order. *)
Theorem log_user_in_success settings login w u hashed :
  passwordless_login_enabled settings = false ->
  users (db w) !! login_email login = Some u ->
  password u = Some hashed ->
  hashed <> "" ->
  verify_password (login_password login) hashed = Returns true ->
  result_of (log_user_in settings login) w =
    generate_jwt_token (clock w) (PyUser u) settings
  /\ db (world_after (log_user_in settings login) w) = db w
  /\ calls_of (log_user_in settings login) w =
       [CallGetUserByEmail (login_email login); CallVerifyPassword;
        CallGenerateJwt].
Proof.
  intros P E S NE V.
  pose proof (log_user_in_verified settings login w u hashed P E S NE) as R.
  rewrite V in R. unfold result_of, world_after. rewrite R. simpl.
  repeat split.
  apply (calls_of_prefix _ _
           [CallGenerateJwt; CallVerifyPassword;
            CallGetUserByEmail (login_email login)]).
  unfold world_after. now rewrite R.
Qed.

(** An exception of the verifier (a corrupt stored hash, say) goes through
    [log_user_in] unchanged, and nothing is issued. *)
Theorem log_user_in_verifier_raises settings login w u hashed e :
  passwordless_login_enabled settings = false ->
  users (db w) !! login_email login = Some u ->
  password u = Some hashed ->
  hashed <> "" ->
  verify_password (login_password login) hashed = Raises e ->
  result_of (log_user_in settings login) w = Raises e
  /\ calls_of (log_user_in settings login) w =
       [CallGetUserByEmail (login_email login); CallVerifyPassword].
Proof.
  intros P E S NE V.
  pose proof (log_user_in_verified settings login w u hashed P E S NE) as R.
  rewrite V in R. unfold result_of. rewrite R. simpl. split; [reflexivity|].
  apply (calls_of_prefix _ _
           [CallVerifyPassword; CallGetUserByEmail (login_email login)]).
  unfold world_after. now rewrite R.
Qed.

(** A stored hash that is [None] or the empty string is no hash: with
    passwordless mode off the login fails with the password-required error
    whatever password is submitted, and the verifier is not called. *)
Theorem log_user_in_falsy_hash settings login w u :
  passwordless_login_enabled settings = false ->
  users (db w) !! login_email login = Some u ->
  password u = None \/ password u = Some "" ->
  result_of (log_user_in settings login) w = Raises PasswordRequiredError
  /\ calls_of (log_user_in settings login) w =
       [CallGetUserByEmail (login_email login)].
Proof.
  intros P E S.
  assert (T : truthy_str (password u) = false)
    by (destruct S as [-> | ->]; reflexivity).
  pose proof (log_user_in_falsy_run settings login w u P E T) as R.
  unfold result_of. rewrite R. split; [reflexivity|].
  apply (calls_of_prefix _ _ [CallGetUserByEmail (login_email login)]).
  unfold world_after. now rewrite R.
Qed.

(** [signup_user] never gets past its duplicate check: on every input and
    under every setting it raises the 400 error and executes no call at all,
    neither the lookup, nor [create_user], nor the issuer. *)
Theorem signup_user_never_succeeds settings (user_signup : UserSignupSchema)
    w :
  result_of (signup_user settings user_signup) w = Raises DuplicateUserError
  /\ world_after (signup_user settings user_signup) w = w
  /\ calls_of (signup_user settings user_signup) w = [].
Proof.
  unfold result_of, world_after, calls_of, world_after.
  rewrite signup_user_run. simpl. repeat split.
  now rewrite Nat.sub_diag.
Qed.

(** Under every setting, passwordless mode included, [log_user_in] leaves
    the table as it found it, and the calls it executes are the lookup of
    the login's email, then at most the verification, then at most the
    issuing: [create_user] is never among them. *)
Theorem log_user_in_read_only settings login w :
  db (world_after (log_user_in settings login) w) = db w
  /\ (calls_of (log_user_in settings login) w
        = [CallGetUserByEmail (login_email login)]
      \/ calls_of (log_user_in settings login) w
        = [CallGetUserByEmail (login_email login); CallVerifyPassword]
      \/ calls_of (log_user_in settings login) w
        = [CallGetUserByEmail (login_email login); CallVerifyPassword;
           CallGenerateJwt]).
Proof.
  destruct (log_user_in_world settings login w) as (new & W & N).
  split; [now rewrite W|].
  assert (C : calls_of (log_user_in settings login) w = rev new)
    by (apply calls_of_prefix; now rewrite W).
  rewrite C. destruct N as [-> | [-> | ->]]; simpl; auto.
Qed.

(** With passwordless mode on no login succeeds: it fails with the
    user-not-found error when the email is unknown and with the
    duplicate-user error when it is known, and neither the verifier nor the
    issuer is called. *)
Theorem passwordless_login_never_succeeds settings login w :
  passwordless_login_enabled settings = true ->
  (users (db w) !! login_email login = None ->
   result_of (log_user_in settings login) w = Raises UserNotFoundError)
  /\ (forall u, users (db w) !! login_email login = Some u ->
      result_of (log_user_in settings login) w = Raises DuplicateUserError)
  /\ is_success (result_of (log_user_in settings login) w) = false
  /\ calls_of (log_user_in settings login) w
     = [CallGetUserByEmail (login_email login)].
Proof.
  intros P.
  destruct (log_user_in_passwordless_run settings login w P)
    as (e & N & K & R).
  unfold result_of. rewrite R. simpl.
  split; [intros E; now rewrite (N E)|].
  split; [intros u E; now rewrite (K u E)|].
  split; [reflexivity|].
  apply (calls_of_prefix _ _ [CallGetUserByEmail (login_email login)]).
  unfold world_after. now rewrite R.
Qed.

(** When a login succeeds: exactly when passwordless mode is off, the email
    has a stored user with a non-empty hash, the verifier answers [True] and
    the issuer returns. *)
Theorem log_user_in_success_iff settings login w :
  is_success (result_of (log_user_in settings login) w) = true <->
  passwordless_login_enabled settings = false
  /\ exists u hashed,
       users (db w) !! login_email login = Some u
       /\ password u = Some hashed
       /\ hashed <> ""
       /\ verify_password (login_password login) hashed = Returns true
       /\ is_success (generate_jwt_token (clock w) (PyUser u) settings)
          = true.
Proof.
  split.
  - intros S.
    destruct (passwordless_login_enabled settings) eqn:P.
    { destruct (log_user_in_passwordless_run settings login w P)
        as (e & _ & _ & R).
      unfold result_of in S. rewrite R in S. discriminate. }
    split; [reflexivity|].
    destruct (users (db w) !! login_email login) as [u|] eqn:E.
    2:{ unfold result_of in S.
        rewrite (log_user_in_missing settings login w E) in S.
        discriminate. }
    destruct (password u) as [hashed|] eqn:Pw.
    2:{ unfold result_of in S.
        rewrite (log_user_in_falsy_run settings login w u P E) in S;
          [discriminate | now rewrite Pw]. }
    destruct (String.eqb_spec hashed "") as [-> | NE].
    { unfold result_of in S.
      rewrite (log_user_in_falsy_run settings login w u P E) in S;
        [discriminate | now rewrite Pw]. }
    exists u, hashed. unfold result_of in S.
    rewrite (log_user_in_verified settings login w u hashed P E Pw NE) in S.
    destruct (verify_password (login_password login) hashed) as [[|]|e];
      try discriminate.
    repeat split; auto.
  - intros (P & u & hashed & E & Pw & NE & V & G).
    unfold result_of.
    rewrite (log_user_in_verified settings login w u hashed P E Pw NE), V.
    exact G.
Qed.

(** The outcome of a login depends on the world only through the record
    stored under the login's email and the clock: the other accounts, the
    primary-key counter and the log play no part. *)
Theorem log_user_in_local settings login w1 w2 :
  users (db w1) !! login_email login = users (db w2) !! login_email login ->
  clock w1 = clock w2 ->
  result_of (log_user_in settings login) w1
  = result_of (log_user_in settings login) w2.
Proof.
  intros E C. unfold result_of.
  destruct (users (db w2) !! login_email login) as [u|] eqn:E2.
  - destruct (passwordless_login_enabled settings) eqn:P.
    + rewrite (log_user_in_passwordless settings login w1 u P E),
        (log_user_in_passwordless settings login w2 u P E2),
        !signup_user_run. reflexivity.
    + rewrite (log_user_in_found settings login w1 u P E),
        (log_user_in_found settings login w2 u P E2).
      unfold call_verify_password, call_generate_jwt_token,
        bind, tell, lift, raise, get_clock.
      destruct (truthy_str (password u)); simpl; [|reflexivity].
      destruct (verify_password _ _) as [[|]|e]; simpl;
        [now rewrite C | reflexivity | reflexivity].
  - rewrite (log_user_in_missing settings login w1 E),
      (log_user_in_missing settings login w2 E2). reflexivity.
Qed.

(** What a login can end in, on any repository, one whose lookup raises
    or changes the world included: a credential of the issuer for the row
    the lookup returned, the exception the lookup raised, one of the four
    HTTP errors of the service, or an exception raised by the verifier or by
    the issuer.  [log_user_in] on the table of the world is the case
    [lookup = get_user_by_email]. *)
Theorem log_user_in_outcomes settings
    (lookup : string -> Coroutine (option User)) login w :
  log_user_in settings login
  = log_user_in_via settings get_user_by_email (signup_user settings) login
  /\ match result_of
            (log_user_in_via settings lookup (signup_user settings) login) w
     with
     | Returns jwt =>
         exists u w1,
           lookup (login_email login) w = (Returns (Some u), w1)
           /\ generate_jwt_token (clock w1) (PyUser u) settings = Returns jwt
     | Raises e =>
         (exists w1, lookup (login_email login) w = (Raises e, w1))
         \/ e = UserNotFoundError \/ e = DuplicateUserError
         \/ e = PasswordRequiredError \/ e = InvalidCredentialsError
         \/ (exists hashed,
               verify_password (login_password login) hashed = Raises e)
         \/ (exists u w1,
               generate_jwt_token (clock w1) (PyUser u) settings = Raises e)
     end.
Proof.
  split; [reflexivity|].
  unfold result_of, log_user_in_via, await. unfold bind at 1.
  destruct (lookup (login_email login) w) as [[[u|]|e] w1] eqn:L.
  - destruct (passwordless_login_enabled settings) eqn:P.
    + unfold bind at 1. unfold bind at 1.
      rewrite signup_user_run. simpl. auto.
    + unfold bind at 1. simpl.
      destruct (truthy_str (password u)); simpl; [|auto].
      unfold call_verify_password, call_generate_jwt_token,
        bind, tell, lift, raise, get_clock. simpl.
      destruct (verify_password (login_password login)
                  (default "" (password u))) as [[|]|e] eqn:V; simpl.
      * destruct (generate_jwt_token (clock w1) (PyUser u) settings) eqn:G.
        -- exists u, w1. auto.
        -- do 6 right. exists u, w1. exact G.
      * auto 6.
      * do 5 right. left. eexists. exact V.
  - simpl. auto.
  - simpl. left. exists w1. reflexivity.
Qed.

End ServiceMore.

(** * Properties of [settings.py] *)

Section SettingsFacts.

Import SettingsPy.
Context {L : Libraries}.
Implicit Types (m : Process) (p q : Path) (f : FS).

Lemma set_fs_same m : set_fs (fs m) m = m.
Proof. now destruct m. Qed.

(** The walk looks at the directories only, as long as it goes through. *)
Lemma dir_at_same f f' loc : dirs f' = dirs f -> dir_at f' loc = dir_at f loc.
Proof. intros D. unfold dir_at. now rewrite D. Qed.

Lemma walk_same f f' cur parts loc :
  dirs f' = dirs f ->
  walk f cur parts = inr loc ->
  walk f' cur parts = inr loc.
Proof.
  intros D. revert cur.
  induction parts as [|name rest IH]; intros cur W; simpl in *; [exact W|].
  destruct rest as [|name' rest]; [exact W|].
  rewrite (dir_at_same f f' _ D).
  destruct (dir_at f (step_into cur name)).
  - now apply IH.
  - destruct (file_at f (step_into cur name)); discriminate.
Qed.

Lemma locate_same f f' p loc :
  dirs f' = dirs f -> cwd f' = cwd f ->
  locate f p = inr loc -> locate f' p = inr loc.
Proof.
  intros D C. destruct p as [parts | parts]; simpl.
  - apply walk_same, D.
  - rewrite C. apply walk_same, D.
Qed.

(** The calls that make directories leave the files and the current
    directory alone. *)
Lemma os_mkdir_files f p made :
  os_mkdir f p = inr made -> files made = files f /\ cwd made = cwd f.
Proof.
  unfold os_mkdir. destruct (locate f p) as [e | loc]; [discriminate|].
  destruct (file_at f loc || dir_at f loc); [discriminate|].
  intros [= <-]. split; reflexivity.
Qed.

Lemma mkdir_flat_files f p made :
  mkdir_flat f p = inr made -> files made = files f /\ cwd made = cwd f.
Proof.
  unfold mkdir_flat. destruct (os_mkdir f p) as [e | f1] eqn:O.
  - destruct e; try discriminate;
      (destruct (is_dir f p); [intros [= <-]; auto | discriminate]).
  - intros [= <-]. now apply (os_mkdir_files f p).
Qed.

Lemma mkdir_up_files anchor f rparts made :
  mkdir_up anchor f rparts = inr made ->
  files made = files f /\ cwd made = cwd f.
Proof.
  revert made. induction rparts as [|name above IH]; intros made; simpl.
  - destruct (os_mkdir f (anchor [])) as [e | f1] eqn:O.
    + destruct e; try discriminate;
        (destruct (is_dir f (anchor [])); [intros [= <-]; auto | discriminate]).
    + intros [= <-]. now apply (os_mkdir_files f (anchor [])).
  - destruct (os_mkdir f (anchor (rev above ++ [name])%list)) as [e | f1] eqn:O.
    + destruct e;
        try (destruct (is_dir f (anchor (rev above ++ [name])%list));
             [intros [= <-]; auto | discriminate]).
      destruct (mkdir_up anchor f above) as [e | f1] eqn:U; [discriminate|].
      intros F. apply mkdir_flat_files in F as (F1 & F2).
      destruct (IH f1 eq_refl) as (I1 & I2). split; congruence.
    + intros [= <-]. now apply (os_mkdir_files f _ _ O).
Qed.

Lemma mkdir_parents_files f d made :
  mkdir_parents f d = Returns made ->
  files made = files f /\ cwd made = cwd f.
Proof.
  unfold mkdir_parents.
  destruct d as [parts | parts];
    match goal with
    | |- context [mkdir_up ?a f ?r] =>
        destruct (mkdir_up a f r) as [e | f1] eqn:U; [discriminate|];
        intros [= <-]; apply (mkdir_up_files a f r f1 U)
    end.
Qed.

(** A text that was written is there: the path exists afterwards. *)
Lemma write_text_spec f p (text : string) written :
  write_text f p text = Returns written ->
  exists loc,
    locate f p = inr loc
    /\ written = {| cwd := cwd f; files := <[loc := text]> (files f);
                    dirs := dirs f |}
    /\ locate written p = inr loc
    /\ path_exists written p = true.
Proof.
  unfold write_text. destruct (locate f p) as [e | loc] eqn:W; [discriminate|].
  destruct (dir_at f loc); [discriminate|].
  destruct (negb (dir_at f (removelast loc))); [discriminate|].
  intros [= <-]. exists loc.
  assert (W' : locate {| cwd := cwd f; files := <[loc := text]> (files f);
                         dirs := dirs f |} p = inr loc)
    by (apply (locate_same f); auto).
  repeat split; [exact W'|].
  unfold path_exists. rewrite W'. unfold file_at. simpl.
  rewrite lookup_insert_eq. apply orb_true_iff. left.
  apply bool_decide_eq_true. eauto.
Qed.

(** The three ways a call of [get_env_file_path] can go. *)
Lemma get_env_file_path_cases m :
  (path_exists (fs m) (chosen_env_file m) = true
   /\ get_env_file_path m = (Returns (chosen_env_file m), m))
  \/ (path_exists (fs m) (chosen_env_file m) = false
      /\ exists e f',
           files f' = files (fs m)
           /\ get_env_file_path m = (Raises e, set_fs f' m))
  \/ (path_exists (fs m) (chosen_env_file m) = false
      /\ exists made loc,
           mkdir_parents (fs m) (parent (chosen_env_file m)) = Returns made
           /\ locate made (chosen_env_file m) = inr loc
           /\ get_env_file_path m =
                (Returns (chosen_env_file m),
                 set_fs {| cwd := cwd made;
                           files := <[loc := banner (ENVIRONMENT m)]>
                                      (files (fs m));
                           dirs := dirs made |} m)).
Proof.
  unfold get_env_file_path.
  destruct (path_exists (fs m) (chosen_env_file m)) eqn:X; simpl.
  { left. auto. }
  right.
  destruct (mkdir_parents (fs m) (parent (chosen_env_file m)))
    as [made | e] eqn:D.
  2:{ left. split; [reflexivity|]. exists e, (fs m).
      now rewrite set_fs_same. }
  destruct (mkdir_parents_files _ _ _ D) as (F & C).
  destruct (write_text made (chosen_env_file m) (banner (ENVIRONMENT m)))
    as [written | e] eqn:T.
  - right. split; [reflexivity|].
    destruct (write_text_spec _ _ _ _ T) as (loc & W & -> & _ & _).
    exists made, loc. rewrite F. auto.
  - left. split; [reflexivity|]. exists e, made. auto.
Qed.

(** What [get_env_file_path] returned exists afterwards. *)
Lemma get_env_file_path_exists_after m q :
  fst (get_env_file_path m) = Returns q ->
  q = chosen_env_file m
  /\ path_exists (fs (snd (get_env_file_path m))) q = true.
Proof.
  intros R.
  destruct (get_env_file_path_cases m)
    as [(X & E) | [(X & e & f' & _ & E) | (X & made & loc & D & W & E)]];
    rewrite E in *; simpl in *; try discriminate;
    injection R as <-; split; auto.
  assert (W' : locate {| cwd := cwd made;
                         files := <[loc := banner (ENVIRONMENT m)]>
                                    (files (fs m));
                         dirs := dirs made |} (chosen_env_file m) = inr loc)
    by (apply (locate_same made); auto).
  unfold path_exists. rewrite W'. unfold file_at. simpl.
  rewrite lookup_insert_eq. apply orb_true_iff. left.
  apply bool_decide_eq_true. eauto.
Qed.

(** In a file system in order, whatever lies below a location lies below a
    directory. *)
Lemma in_order_spec f :
  in_order f = true ->
  (forall loc, file_at f loc = true -> dir_at f (removelast loc) = true)
  /\ (forall loc, dir_at f loc = true -> dir_at f (removelast loc) = true).
Proof.
  unfold in_order. rewrite forallb_forall. intros O. split.
  - intros loc F. apply O, in_app_iff. left.
    apply bool_decide_eq_true in F as [text F].
    apply list_elem_of_In, list_elem_of_fmap. exists (loc, text).
    split; [reflexivity|]. now apply elem_of_map_to_list.
  - intros [|x loc] D; [reflexivity|].
    apply O, in_app_iff. right.
    apply bool_decide_eq_true in D.
    now apply list_elem_of_In, elem_of_elements.
Qed.

Lemma in_order_above f (l l' : list string) :
  in_order f = true ->
  l' <> [] ->
  file_at f (l ++ l')%list = true \/ dir_at f (l ++ l')%list = true ->
  dir_at f l = true.
Proof.
  intros O. apply in_order_spec in O as (OF & OD).
  induction l' as [|x l' IH] using rev_ind; [congruence|].
  intros _ H.
  assert (D : dir_at f (l ++ l')%list = true).
  { replace (l ++ l')%list with (removelast (l ++ (l' ++ [x]))%list)
      by (rewrite app_assoc; apply removelast_last).
    destruct H as [H | H]; [now apply OF | now apply OD]. }
  destruct l' as [|y l'].
  - now rewrite app_nil_r in D.
  - apply IH; [discriminate | now right].
Qed.

(** Without [..] the walk goes where the components say. *)
Lemma walk_plain_loc f cur (parts loc : list string) :
  forallb (fun name => negb (String.eqb name "..")) parts = true ->
  walk f cur parts = inr loc ->
  loc = (cur ++ parts)%list.
Proof.
  revert cur. induction parts as [|name rest IH]; intros cur N W; simpl in *.
  - injection W as <-. now rewrite app_nil_r.
  - apply andb_true_iff in N as (N1 & N2).
    assert (S : step_into cur name = (cur ++ [name])%list).
    { unfold step_into. destruct (String.eqb name ".."); [discriminate|].
      reflexivity. }
    rewrite S in W. destruct rest as [|name' rest].
    + now injection W as <-.
    + destruct (dir_at f (cur ++ [name])%list).
      * rewrite (IH _ N2 W). now rewrite <- app_assoc.
      * destruct (file_at f (cur ++ [name])%list); discriminate.
Qed.

Lemma walk_plain_found f cur (parts : list string) :
  in_order f = true ->
  forallb (fun name => negb (String.eqb name "..")) parts = true ->
  file_at f (cur ++ parts)%list = true
  \/ dir_at f (cur ++ parts)%list = true ->
  walk f cur parts = inr (cur ++ parts)%list.
Proof.
  intros O. revert cur.
  induction parts as [|name rest IH]; intros cur N H; simpl in *.
  - now rewrite app_nil_r.
  - apply andb_true_iff in N as (N1 & N2).
    assert (S : step_into cur name = (cur ++ [name])%list).
    { unfold step_into. destruct (String.eqb name ".."); [discriminate|].
      reflexivity. }
    rewrite S. destruct rest as [|name' rest]; [reflexivity|].
    assert (E : (cur ++ name :: name' :: rest)%list
                = ((cur ++ [name]) ++ name' :: rest)%list)
      by now rewrite <- app_assoc.
    rewrite E in H.
    rewrite (in_order_above f (cur ++ [name])%list (name' :: rest) O);
      [|discriminate | exact H].
    rewrite (IH _ N2 H). now rewrite E.
Qed.

(** When [get_env_file_path] returns a path, that path exists afterwards:
    it was there already, or the call has just created it. *)
Theorem get_env_file_path_ensures_file m q :
  fst (get_env_file_path m) = Returns q ->
  path_exists (fs (snd (get_env_file_path m))) q = true.
Proof.
  intros R. now apply get_env_file_path_exists_after.
Qed.

(** In a file system in order and for a chosen path without [..],
    [get_env_file_path] never overwrites or removes a file: every file that
    was there keeps its text, whether the call returns or raises. *)
Theorem get_env_file_path_keeps_files m (loc : list string)
    (text : string) :
  in_order (fs m) = true ->
  no_dotdot (chosen_env_file m) = true ->
  files (fs m) !! loc = Some text ->
  files (fs (snd (get_env_file_path m))) !! loc = Some text.
Proof.
  intros O N F.
  destruct (get_env_file_path_cases m)
    as [(X & E) | [(X & e & f' & K & E) | (X & made & at_ & D & W & E)]];
    rewrite E; simpl; [exact F | now rewrite K |].
  rewrite lookup_insert_ne; [exact F|]. intros ->.
  destruct (mkdir_parents_files _ _ _ D) as (_ & C).
  assert (A : file_at (fs m) loc = true)
    by (unfold file_at; apply bool_decide_eq_true; eauto).
  unfold no_dotdot in N. unfold path_exists in X.
  destruct (chosen_env_file m) as [parts | parts]; simpl in *.
  - pose proof (walk_plain_loc _ _ _ _ N W) as ->. simpl in *.
    rewrite (walk_plain_found (fs m) [] parts O N) in X by (left; exact A).
    simpl in X. rewrite A in X. discriminate.
  - pose proof (walk_plain_loc _ _ _ _ N W) as ->. rewrite C in *.
    rewrite (walk_plain_found (fs m) (cwd (fs m)) parts O N) in X
      by (left; exact A).
    rewrite A in X. discriminate.
Qed.

(** Whatever the chosen path, [get_env_file_path] removes no file and
    changes the text of at most one: the file at the location the chosen
    path leads to once its directories are made, and only when that path
    did not exist before.  A path through a missing directory and [..] can
    lead to a file that was there, which then holds the banner. *)
Theorem get_env_file_path_touches_target m (loc : list string)
    (text : string) :
  files (fs m) !! loc = Some text ->
  files (fs (snd (get_env_file_path m))) !! loc = Some text
  \/ (path_exists (fs m) (chosen_env_file m) = false
      /\ fst (get_env_file_path m) = Returns (chosen_env_file m)
      /\ locate (fs (snd (get_env_file_path m))) (chosen_env_file m)
         = inr loc
      /\ files (fs (snd (get_env_file_path m))) !! loc
         = Some (banner (ENVIRONMENT m))).
Proof.
  intros F.
  destruct (get_env_file_path_cases m)
    as [(X & E) | [(X & e & f' & K & E) | (X & made & at_ & D & W & E)]];
    rewrite E; simpl; [now left | left; now rewrite K |].
  destruct (decide (at_ = loc)) as [-> | NE].
  - right. repeat split; [exact X | | apply lookup_insert_eq].
    apply (locate_same made); auto.
  - left. now rewrite lookup_insert_ne.
Qed.

(** A second call of [get_env_file_path] gives the same path and changes
    nothing. *)
Theorem get_env_file_path_idempotent m q m' :
  get_env_file_path m = (Returns q, m') ->
  get_env_file_path m' = (Returns q, m').
Proof.
  intros R.
  destruct (get_env_file_path_exists_after m q) as (_ & X);
    [now rewrite R|].
  rewrite R in X. simpl in X.
  assert (C : chosen_env_file m' = q).
  { destruct (get_env_file_path_cases m)
      as [(_ & E) | [(_ & e & f' & _ & E) | (_ & made & loc & _ & _ & E)]];
      rewrite E in R; try discriminate; now injection R as <- <-. }
  unfold get_env_file_path. now rewrite C, X.
Qed.

(** With an absolute [BASE_DIR], the path [get_env_file_path] returns is
    absolute, whichever of the three sources it came from. *)
Theorem get_env_file_path_absolute m q :
  is_absolute (BASE_DIR m) = true ->
  fst (get_env_file_path m) = Returns q ->
  is_absolute q = true.
Proof.
  intros B R.
  assert (A : is_absolute (chosen_env_file m) = true).
  { unfold chosen_env_file.
    match goal with
    | |- context [negb (is_absolute ?x)] =>
        destruct (is_absolute x) eqn:A; simpl; [exact A|];
        destruct x; [discriminate|]
    end.
    destruct (BASE_DIR m); [reflexivity | discriminate]. }
  destruct (get_env_file_path_exists_after m q R) as (-> & _). exact A.
Qed.

(** The programmatic override wins: after [set_env_file_path(p)] the path
    [get_env_file_path] returns is [p], resolved against [BASE_DIR] when
    relative, whatever [AUTH_ENV_FILE] and [ENVIRONMENT] say. *)
Theorem set_env_file_path_wins m p q :
  fst (get_env_file_path (snd (set_env_file_path (inr p) m))) = Returns q ->
  q = if is_absolute p then p else joinpath (BASE_DIR m) p.
Proof.
  intros R.
  destruct (get_env_file_path_exists_after _ q R) as (-> & _).
  unfold chosen_env_file; simpl. now destruct (is_absolute p).
Qed.

(** An [AUTH_ENV_FILE] set to the empty string counts as not set. *)
Theorem auth_env_file_empty_ignored m :
  _env_file_path m = None ->
  environ m !! "AUTH_ENV_FILE" = Some "" ->
  fst (get_env_file_path m)
  = fst (get_env_file_path
           (set_outside (delete "AUTH_ENV_FILE" (environ m)) (fs m) m)).
Proof.
  intros O A.
  assert (C : chosen_env_file
                (set_outside (delete "AUTH_ENV_FILE" (environ m)) (fs m) m)
              = chosen_env_file m).
  { unfold chosen_env_file. simpl. now rewrite O, A, lookup_delete_eq. }
  unfold get_env_file_path. rewrite C. simpl.
  destruct (path_exists _ _); simpl; [reflexivity|].
  destruct (mkdir_parents _ _); simpl; [|reflexivity].
  destruct (write_text _ _ _); reflexivity.
Qed.


(** After [configure(s)], [get_settings()] returns [s], whatever was cached
    before and whatever the environment holds, and no file is touched. *)
Theorem configure_then_get_settings m (s : Settings) :
  fst (get_settings (snd (configure s m))) = Returns s
  /\ fs (snd (get_settings (snd (configure s m)))) = fs m.
Proof. split; reflexivity. Qed.

Lemma configured_step (s : Settings) m (st : step) :
  configured s m -> configured s (run_step m st).
Proof.
  intros (S & C). destruct st as [| path | | env f]; simpl.
  - destruct (get_env_file_path_cases m)
      as [(_ & E) | [(_ & e & f' & _ & E) | (_ & made & loc & _ & _ & E)]];
      rewrite E; simpl; split; assumption.
  - split; [exact S | now left].
  - unfold get_settings, get_settings_body. rewrite S.
    destruct C as [C | C]; rewrite C; simpl; split; auto.
  - split; assumption.
Qed.

(** The configured object is sticky: after [configure(s)], whatever calls of
    [get_env_file_path], [set_env_file_path] and [get_settings] follow and
    however the environment and the files change, [get_settings()] returns
    [s]; only another [configure] changes that. *)
Theorem configure_is_sticky m (s : Settings) (steps : list step) :
  fst (get_settings (run_steps (snd (configure s m)) steps)) = Returns s.
Proof.
  assert (I : configured s (run_steps (snd (configure s m)) steps)).
  { unfold run_steps.
    assert (I0 : configured s (snd (configure s m)))
      by (split; [reflexivity | now left]).
    revert I0. generalize (snd (configure s m)).
    induction steps as [|st steps IH]; intros m0 I0; simpl; [exact I0|].
    apply IH, configured_step, I0. }
  destruct I as (S & C). unfold get_settings, get_settings_body.
  rewrite S. destruct C as [-> | ->]; reflexivity.
Qed.

(** What [get_settings()] returned once, it returns again, however the
    environment variables and the files change in between: the value is
    only looked up afresh after [configure] or [set_env_file_path]. *)
Theorem get_settings_cached m (s : Settings) (env : gmap string string)
    (f : FS) :
  fst (get_settings m) = Returns s ->
  get_settings (set_outside env f (snd (get_settings m)))
  = (Returns s, set_outside env f (snd (get_settings m))).
Proof.
  intros R.
  assert (C : cache (snd (get_settings m)) = Some s).
  { unfold get_settings in *.
    destruct (cache m) eqn:K; simpl in *.
    - congruence.
    - destruct (get_settings_body m) as [[s'|e] m1]; simpl in *;
        [congruence | discriminate]. }
  unfold get_settings at 1. simpl. now rewrite C.
Qed.

(** A call of [get_settings()] that raises caches nothing. *)
Theorem get_settings_failure_not_cached m e :
  cache m = None ->
  fst (get_settings m) = Raises e ->
  cache (snd (get_settings m)) = None.
Proof.
  intros K R. unfold get_settings in *. rewrite K in *.
  destruct (get_settings_body m) as [[s|e'] m1] eqn:B; simpl in *;
    [discriminate|].
  unfold get_settings_body in B.
  destruct (_settings m); [discriminate|].
  destruct (get_env_file_path_cases m)
    as [(_ & E) | [(_ & e0 & f' & _ & E) | (_ & made & loc & _ & _ & E)]];
    rewrite E in B; injection B as _ <-; exact K.
Qed.

(** After [set_env_file_path(p)] with [p] an absolute path that exists and
    no configured object, [get_settings()] is [Settings()] read from [p],
    even when another value was cached. *)
Theorem set_env_file_path_reloads m p :
  _settings m = None ->
  is_absolute p = true ->
  path_exists (fs m) p = true ->
  fst (get_settings (snd (set_env_file_path (inr p) m)))
  = load_settings (environ m) (Some p) (fs m).
Proof.
  intros S A X.
  unfold get_settings, get_settings_body, get_env_file_path,
    chosen_env_file. simpl.
  rewrite S, A. simpl. rewrite X. simpl.
  destruct (load_settings _ _ _); reflexivity.
Qed.

(** Importing the module already creates the environment file: after a
    successful import the chosen file exists and is the one recorded in
    [model_config], and nothing is configured or cached yet. *)
Theorem import_module_creates_file (env : gmap string string) (f : FS)
    (base : Path) :
  fst (import_module env f base) = Returns tt ->
  model_config (snd (import_module env f base))
    = Some (chosen_env_file (snd (import_module env f base)))
  /\ path_exists (fs (snd (import_module env f base)))
       (chosen_env_file (snd (import_module env f base))) = true
  /\ _settings (snd (import_module env f base)) = None
  /\ cache (snd (import_module env f base)) = None.
Proof.
  unfold import_module.
  set (m := {| environ := env; fs := f;
               ENVIRONMENT := default "dev" (env !! "ENVIRONMENT");
               BASE_DIR := base; _env_file_path := None;
               _settings := None; model_config := None; cache := None |}).
  intros R.
  pose proof (get_env_file_path_exists_after m) as X.
  destruct (get_env_file_path_cases m)
    as [(_ & E) | [(_ & e & f' & _ & E) | (_ & made & loc & _ & _ & E)]];
    rewrite E in *; simpl in *; try discriminate;
    destruct (X _ eq_refl) as (_ & X'); repeat split; exact X'.
Qed.

End SettingsFacts.

(** * Properties of [database/db.py] *)

Section DbFacts.

Import Db.
Context {Session : Type}.
Variable str_of : exn -> string.
Variable format_exc : exn -> string.
Implicit Types (self : DatabaseSession) (enter : raised + Session)
  (use : Session -> consumer) (leave : option raised -> option raised).

(** The exception in flight when the [async with] block is left. *)
Lemma get_session_escaped self enter use leave :
  escaped (get_session Session str_of format_exc self enter use leave)
  = match enter with
    | inl x => fst (handle str_of format_exc self x)
    | inr session =>
        match leave (match use session with
                     | Resume => None
                     | Throw x => Some x
                     end) with
        | None => None
        | Some x => fst (handle str_of format_exc self x)
        end
    end.
Proof.
  unfold get_session. destruct enter as [x | session]; [reflexivity|].
  destruct (leave _); reflexivity.
Qed.

(** Without [fail_silently] nothing is swallowed: when the generator
    finishes without an exception, the session was opened and handed out,
    and leaving the [async with] block raised nothing. *)
Theorem get_session_never_swallows self enter use leave :
  fail_silently self = false ->
  escaped (get_session Session str_of format_exc self enter use leave)
    = None ->
  exists session,
    enter = inr session
    /\ yielded (get_session Session str_of format_exc self enter use leave)
       = Some session
    /\ leave (match use session with
              | Resume => None
              | Throw x => Some x
              end) = None.
Proof.
  intros F E. rewrite get_session_escaped in E.
  destruct enter as [x | session].
  - destruct x; simpl in E; [rewrite F in E|]; discriminate.
  - exists session. unfold get_session.
    destruct (leave _) as [x|]; [|auto].
    destruct x; simpl in E; [rewrite F in E|]; discriminate.
Qed.

(** With [fail_silently] no [Exception] leaves the generator; when opening
    the session raised one, the generator ends without yielding. *)
Theorem get_session_silent self enter use leave e :
  fail_silently self = true ->
  escaped (get_session Session str_of format_exc self enter use leave)
    <> Some (AnException e)
  /\ (enter = inl (AnException e) ->
      yielded (get_session Session str_of format_exc self enter use leave)
        = None
      /\ escaped (get_session Session str_of format_exc self enter use leave)
        = None).
Proof.
  intros F. split.
  - rewrite get_session_escaped.
    destruct enter as [x | session].
    + destruct x; simpl; [rewrite F|]; discriminate.
    + destruct (leave _) as [x|]; [|discriminate].
      destruct x; simpl; [rewrite F|]; discriminate.
  - intros ->. unfold get_session. simpl. now rewrite F.
Qed.

(** An [Exception] that leaves the generator has been logged first, as two
    error records: the message with [str(e)], then the traceback. *)
Theorem get_session_logs_what_escapes self enter use leave e :
  escaped (get_session Session str_of format_exc self enter use leave)
    = Some (AnException e) ->
  logged (get_session Session str_of format_exc self enter use leave)
  = ["Failed to get database session: " ++ str_of e; format_exc e].
Proof.
  unfold get_session. destruct enter as [x | session].
  - destruct x as [e' | c]; simpl.
    + destruct (fail_silently self); simpl; [discriminate|].
      now intros [= ->].
    + discriminate.
  - destruct (leave _) as [x|]; simpl; [|discriminate].
    destruct x as [e' | c]; simpl.
    + destruct (fail_silently self); simpl; [discriminate|].
      now intros [= ->].
    + discriminate.
Qed.

(** A [BaseException] that is no [Exception] (the [GeneratorExit] of
    [aclose], a cancellation) passes through unlogged, with or without
    [fail_silently]. *)
Theorem get_session_base_exception self session use leave (cls : string) :
  leave (match use session with
         | Resume => None
         | Throw x => Some x
         end) = Some (BaseOnly cls) ->
  escaped (get_session Session str_of format_exc self (inr session) use leave)
    = Some (BaseOnly cls)
  /\ logged (get_session Session str_of format_exc self (inr session) use
               leave) = [].
Proof.
  intros E. unfold get_session. rewrite E. split; reflexivity.
Qed.

(** The dependency [get_session(settings)] never runs silently: whatever
    is raised on opening the session, or is in flight when the [async with]
    block is left, leaves the generator unchanged. *)
Theorem get_session_dependency_transparent (settings : Settings) enter use
    leave :
  escaped (get_session_dependency Session str_of format_exc settings enter
             use leave)
  = match enter with
    | inl x => Some x
    | inr session => leave (match use session with
                            | Resume => None
                            | Throw x => Some x
                            end)
    end.
Proof.
  unfold get_session_dependency. rewrite get_session_escaped.
  destruct enter as [[e | c] | session]; simpl; try reflexivity.
  destruct (leave _) as [[e | c]|]; reflexivity.
Qed.

End DbFacts.

(** * The further properties at concrete inputs *)

Import Fixtures.

(** A repository that is down: the exception of the lookup is the outcome
    of the login. *)
Example login_repository_down :
  result_of (log_user_in_via (default_settings "k")
               (fun _ => raise (PyError "OperationalError"))
               (signup_user (default_settings "k"))
               (mkLogin "a@x.com" "p1")) world2
  = Raises (PyError "OperationalError").
Proof. reflexivity. Qed.

Lemma log_user_in_success_witness :
  result_of (log_user_in (default_settings "k") (mkLogin "a@x.com" "p1"))
            world4
  = generate_jwt_token 1000 (PyUser alice) (default_settings "k")
  /\ calls_of (log_user_in (default_settings "k") (mkLogin "a@x.com" "p1"))
              world4
     = [CallGetUserByEmail "a@x.com"; CallVerifyPassword; CallGenerateJwt].
Proof.
  destruct (log_user_in_success (default_settings "k")
              (mkLogin "a@x.com" "p1") world4 alice (ref_hash "p1"))
    as (R & _ & C);
    [reflexivity | reflexivity | reflexivity | discriminate | reflexivity |].
  split; [exact R | exact C].
Defined.

Lemma log_user_in_verifier_raises_witness :
  result_of (log_user_in (default_settings "k") (mkLogin "d@x.com" "plain"))
            world4
  = Raises (PyError "CorruptCredentialError").
Proof.
  apply (log_user_in_verifier_raises (default_settings "k")
           (mkLogin "d@x.com" "plain") world4 dave "plain");
    [reflexivity | reflexivity | reflexivity | discriminate | reflexivity].
Defined.

Lemma log_user_in_falsy_hash_witness :
  result_of (log_user_in (default_settings "k") (mkLogin "e@x.com" ""))
            world4
  = Raises PasswordRequiredError.
Proof.
  apply (log_user_in_falsy_hash (default_settings "k")
           (mkLogin "e@x.com" "") world4 erin);
    [reflexivity | reflexivity | right; reflexivity].
Defined.

Lemma passwordless_login_never_succeeds_witness :
  result_of (log_user_in passwordless_settings (mkLogin "z@x.com" "x")) world4
  = Raises UserNotFoundError
  /\ result_of (log_user_in passwordless_settings (mkLogin "e@x.com" "x"))
               world4
     = Raises DuplicateUserError
  /\ calls_of (log_user_in passwordless_settings (mkLogin "e@x.com" "x"))
              world4
     = [CallGetUserByEmail "e@x.com"].
Proof.
  destruct (passwordless_login_never_succeeds passwordless_settings
              (mkLogin "z@x.com" "x") world4) as (N & _);
    [reflexivity|].
  destruct (passwordless_login_never_succeeds passwordless_settings
              (mkLogin "e@x.com" "x") world4) as (_ & K & _ & C);
    [reflexivity|].
  split; [apply N; reflexivity|].
  split; [apply (K erin); reflexivity | exact C].
Defined.

Lemma log_user_in_local_witness :
  result_of (log_user_in (default_settings "k") (mkLogin "a@x.com" "p1"))
            world2
  = result_of (log_user_in (default_settings "k") (mkLogin "a@x.com" "p1"))
              world4.
Proof.
  apply (log_user_in_local (default_settings "k") (mkLogin "a@x.com" "p1")
           world2 world4); reflexivity.
Defined.

Import SettingsPy.

Lemma get_env_file_path_ensures_file_witness :
  path_exists (fs (snd (get_env_file_path proc0)))
              (Abs ["etc"; "auth"; "prod.env"]) = true.
Proof.
  apply (get_env_file_path_ensures_file proc0). reflexivity.
Defined.

(** The file of [fs1] outlives the creation of [/etc/auth/prod.env]. *)
Lemma get_env_file_path_keeps_files_witness :
  files (fs (snd (get_env_file_path (set_fs fs1 proc0))))
    !! ["srv"; "app"; "x.env"] = Some "SECRET=1".
Proof.
  apply (get_env_file_path_keeps_files (set_fs fs1 proc0));
    [vm_compute; reflexivity | vm_compute; reflexivity | reflexivity].
Defined.

(** With [AUTH_ENV_FILE=missing/../x.env] it does not: the path does not
    exist while [missing] does not, and leads to [x.env] once it does. *)
Lemma get_env_file_path_touches_target_witness :
  files (fs proc1) !! ["srv"; "app"; "x.env"] = Some "SECRET=1"
  /\ path_exists (fs proc1) (chosen_env_file proc1) = false
  /\ files (fs (snd (get_env_file_path proc1))) !! ["srv"; "app"; "x.env"]
     = Some (banner "dev").
Proof.
  split; [reflexivity|].
  destruct (get_env_file_path_touches_target proc1 ["srv"; "app"; "x.env"]
              "SECRET=1") as [K | (X & _ & _ & B)]; [reflexivity | |].
  - vm_compute in K. discriminate.
  - split; [exact X | exact B].
Defined.

Lemma get_env_file_path_idempotent_witness :
  get_env_file_path (snd (get_env_file_path proc0))
  = (Returns (Abs ["etc"; "auth"; "prod.env"]),
     snd (get_env_file_path proc0)).
Proof.
  apply (get_env_file_path_idempotent proc0). reflexivity.
Defined.

Lemma get_env_file_path_absolute_witness :
  is_absolute (Abs ["srv"; "app"; "local.env"]) = true.
Proof.
  apply (get_env_file_path_absolute
           (snd (set_env_file_path (inl "local.env") proc0)));
    reflexivity.
Defined.

Lemma set_env_file_path_wins_witness :
  Abs ["srv"; "app"; "conf"; "test.env"]
  = if is_absolute (Rel ["conf"; "test.env"]) then Rel ["conf"; "test.env"]
    else joinpath (BASE_DIR proc0) (Rel ["conf"; "test.env"]).
Proof.
  apply (set_env_file_path_wins proc0 (Rel ["conf"; "test.env"])).
  reflexivity.
Defined.

Lemma auth_env_file_empty_ignored_witness :
  fst (get_env_file_path
         (set_outside {[ "AUTH_ENV_FILE" := "" ]} fs0 proc0))
  = Returns (Abs ["srv"; "app"; ".dev.env"]).
Proof.
  rewrite (auth_env_file_empty_ignored
             (set_outside {[ "AUTH_ENV_FILE" := "" ]} fs0 proc0));
    reflexivity.
Defined.


Lemma get_settings_cached_witness :
  fst (get_settings (set_outside ∅ fs0 (snd (get_settings proc0))))
  = Returns (default_settings (banner "dev")).
Proof.
  rewrite (get_settings_cached proc0 (default_settings (banner "dev")) ∅ fs0);
    reflexivity.
Defined.

(** A process whose environment file cannot be created: [/etc] is a regular
    file. *)
Lemma get_settings_failure_not_cached_witness :
  cache (snd (get_settings
                (set_fs {| cwd := []; files := {[ ["etc"] := "x" ]};
                           dirs := ∅ |} proc0))) = None.
Proof.
  apply (get_settings_failure_not_cached
           (set_fs {| cwd := []; files := {[ ["etc"] := "x" ]};
                      dirs := ∅ |} proc0)
           (PyError "NotADirectoryError"));
    reflexivity.
Defined.

Lemma set_env_file_path_reloads_witness :
  fst (get_settings
         (snd (set_env_file_path (inr (Abs ["etc"; "auth"; "prod.env"]))
                 (snd (get_settings proc0)))))
  = Returns (default_settings (banner "dev")).
Proof.
  rewrite (set_env_file_path_reloads (snd (get_settings proc0))
             (Abs ["etc"; "auth"; "prod.env"]));
    reflexivity.
Defined.

Lemma import_module_creates_file_witness :
  model_config (snd (import_module ∅ fs0 app_dir))
  = Some (Abs ["srv"; "app"; ".dev.env"]).
Proof.
  destruct (import_module_creates_file ∅ fs0 app_dir) as (C & _);
    [reflexivity|].
  rewrite C. reflexivity.
Defined.

(** Runs of the session generator: sessions are numbers, [str(e)] is the
    detail or the class name. *)
Lemma get_session_never_swallows_witness :
  exists session : nat,
    Db.yielded (Db.get_session nat (fun _ => "e") (fun _ => "tb")
               (Db.new_DatabaseSession (default_settings "k"))
               (inr 7%nat) (fun _ => Db.Resume) (fun x => x))
    = Some session.
Proof.
  destruct (get_session_never_swallows (fun _ => "e") (fun _ => "tb")
              (Db.new_DatabaseSession (default_settings "k"))
              (inr 7%nat) (fun _ => Db.Resume) (fun x => x))
    as (session & _ & Y & _); [reflexivity | reflexivity |].
  exists session. exact Y.
Defined.

Lemma get_session_silent_witness :
  Db.yielded (Db.get_session nat (fun _ => "e") (fun _ => "tb")
             (Db.mkDatabaseSession (default_settings "k") true)
             (inl (Db.AnException (PyError "OperationalError")))
             (fun _ => Db.Resume) (fun x => x)) = None
  /\ Db.escaped (Db.get_session nat (fun _ => "e") (fun _ => "tb")
                   (Db.mkDatabaseSession (default_settings "k") true)
                   (inl (Db.AnException (PyError "OperationalError")))
                   (fun _ => Db.Resume) (fun x => x)) = None.
Proof.
  destruct (get_session_silent (Session := nat) (fun _ => "e") (fun _ => "tb")
              (Db.mkDatabaseSession (default_settings "k") true)
              (inl (Db.AnException (PyError "OperationalError")))
              (fun _ => Db.Resume) (fun x => x) (PyError "OperationalError"))
    as (_ & S); [reflexivity|].
  apply S. reflexivity.
Defined.

Lemma get_session_logs_what_escapes_witness :
  Db.logged (Db.get_session nat (fun _ => "e") (fun _ => "tb")
               (Db.new_DatabaseSession (default_settings "k"))
               (inr 7%nat)
               (fun _ => Db.Throw (Db.AnException InvalidCredentialsError))
               (fun x => x))
  = ["Failed to get database session: e"; "tb"].
Proof.
  apply (get_session_logs_what_escapes (fun _ => "e") (fun _ => "tb")
           (Db.new_DatabaseSession (default_settings "k")) (inr 7%nat)
           (fun _ => Db.Throw (Db.AnException InvalidCredentialsError))
           (fun x => x) InvalidCredentialsError).
  reflexivity.
Defined.

Lemma get_session_base_exception_witness :
  Db.logged (Db.get_session nat (fun _ => "e") (fun _ => "tb")
               (Db.mkDatabaseSession (default_settings "k") true)
               (inr 7%nat)
               (fun _ => Db.Throw (Db.BaseOnly "GeneratorExit"))
               (fun x => x)) = [].
Proof.
  apply (get_session_base_exception (fun _ => "e") (fun _ => "tb")
           (Db.mkDatabaseSession (default_settings "k") true) 7%nat
           (fun _ => Db.Throw (Db.BaseOnly "GeneratorExit")) (fun x => x)
           "GeneratorExit").
  reflexivity.
Defined.
